(** * shotStopper: the BLE client, its task coordinator and the knob handlers

    A shallow embedding of [ble_client.cpp], of the four display functions
    of [lvgl_display.cpp] it calls, and of the knob handlers of the rotary
    encoder module.  The globals of the C++ code are the fields of one
    [State] record that every function threads through a small state monad.
    Whatever is decided outside the repository (what a scan finds, whether
    the peer acknowledges a write, which callbacks the BLE stack delivers
    while a task sleeps, whether FreeRTOS grants the mutex in time) is an
    explicit argument of the function that asks for it.  Calls that leave
    the module (display functions, BLE library, FreeRTOS) are recorded in
    [trace], newest first.  [Serial] output is not modelled. *)

From Stdlib Require Import ZArith List Bool Lia.
From Stdlib.Strings Require Import Byte.
Import ListNotations.
Open Scope Z_scope.

(** ** Signed 8-bit integers ([int8_t]) *)

Module Int8.

Definition in_range (z : Z) : Prop := -128 <= z <= 127.

(** Conversion of an [int] to [int8_t]: reduction modulo 2^8 into
    [-128, 127]. *)
Definition wrap (z : Z) : Z := (z + 128) mod 256 - 128.

(** [(int8_t)value[0]]: the byte read as a two's complement number. *)
Definition of_byte (b : byte) : Z := wrap (Z.of_N (Byte.to_N b)).

(** [(uint8_t* )&weight]: the one byte that stores an [int8_t]. *)
Definition to_byte (z : Z) : byte :=
  match Byte.of_N (Z.to_N (z mod 256)) with
  | Some b => b
  | None => x00
  end.

End Int8.

(** ** Types shared by the modules ([app_events.h], BLE library objects) *)

Inductive ble_status_t : Type :=
| BLE_STATUS_DISCONNECTED
| BLE_STATUS_CONNECTING
| BLE_STATUS_CONNECTED
| BLE_STATUS_FAILED.

(** A 128-bit UUID, as a number. *)
Definition BLEUUID := N.

Definition serviceUUID : BLEUUID := 0xffe%N.
Definition charUUID : BLEUUID := 0xff11%N.

(** What a scan reports about one advertiser. *)
Record BLEAdvertisedDevice : Type := mkDevice {
  getAddress : N;
  getRSSI : Z;
  getServiceUUIDs : list BLEUUID
}.

Definition isAdvertisingService (device : BLEAdvertisedDevice) (uuid : BLEUUID) : bool :=
  existsb (N.eqb uuid) (getServiceUUIDs device).

(** The properties of a remote characteristic that the client asks for. *)
Record BLERemoteCharacteristic : Type := mkCharacteristic {
  canRead : bool;
  canWrite : bool;
  canNotify : bool
}.

(** The library's client object; [isConnected] is the library's own flag,
    distinct from the module's [connected]. *)
Record BLEClient : Type := mkClient {
  isConnected : bool
}.

(** A library call inside [try { ... } catch (...)]: it throws or returns. *)
Inductive CallResult (A : Type) : Type :=
| Threw
| Returned (a : A).
Arguments Threw {A}.
Arguments Returned {A} a.

(** The two task functions of the module. *)
Inductive TaskFn : Type :=
| InitialReadTask
| WriteVerifyTask.

Definition TaskFn_eqb (a b : TaskFn) : bool :=
  match a, b with
  | InitialReadTask, InitialReadTask => true
  | WriteVerifyTask, WriteVerifyTask => true
  | _, _ => false
  end.

(** The client callbacks the BLE stack may deliver while a task is blocked. *)
Inductive Callback : Type :=
| OnConnect
| OnDisconnect.

(** [lv_scr_act()] compared with the two screen pointers. *)
Inductive Screen : Type :=
| screen_shot_stopper
| screen_ha
| screen_other.

(** ** Calls that leave the modelled code *)

Inductive Event : Type :=
(* display module *)
| EvStatus (status : ble_status_t)
| EvDisplayValue (weight : Z)
| EvCheckmark (shown : bool)
| EvResetInactivity
| EvHaEncoderTurn (direction : Z)
(* BLE library *)
| EvScanStart
| EvScanClearResults
| EvCreateClient
| EvClientConnect (device : BLEAdvertisedDevice)
| EvClientDisconnect
| EvGetService
| EvGetCharacteristic
| EvDescriptorWrite
| EvRegisterForNotify
| EvReadValue
| EvWriteValue (payload : byte)
(* FreeRTOS *)
| EvSemaphoreTake (who : TaskFn) (ok : bool)
| EvSemaphoreGive
| EvTaskDelay (ms : Z)
| EvTaskCreate (fn : TaskFn) (ok : bool)
| EvTaskDelete (fn : TaskFn)
| EvTimerReset.

(** ** The labels of the Shot Stopper screen ([lvgl_display.cpp])

    A label pointer is [None] while the screen has not been loaded. *)

Record Display : Type := mkDisplay {
  ble_status_label : option (Z * Z * Z);   (* text colour *)
  weight_label : option Z;                 (* the number shown by "%d g" *)
  checkmark_label : option bool            (* LV_OBJ_FLAG_HIDDEN *)
}.

(** ** The globals *)

Record State : Type := mkState {
  (* ble_client.cpp *)
  connected : bool;
  pRemoteCharacteristic : option BLERemoteCharacteristic;
  myDevice : option BLEAdvertisedDevice;
  pClient : option BLEClient;
  bleMutex : option TaskFn;                (* the task holding the mutex *)
  writeTaskHandle : option TaskFn;
  initialReadTaskHandle : option TaskFn;
  target_weight : Z;
  weight_buffer : Z;                       (* static local of write_target_weight *)
  (* encoder module *)
  ble_write_timer : bool;                  (* handle is not NULL *)
  (* FreeRTOS: tasks created by this module and not yet deleted *)
  tasks : list TaskFn;
  (* display module *)
  display : Display;
  trace : list Event
}.

Definition set_connected (v : bool) (s : State) : State :=
  mkState v (pRemoteCharacteristic s) (myDevice s) (pClient s) (bleMutex s)
    (writeTaskHandle s) (initialReadTaskHandle s) (target_weight s)
    (weight_buffer s) (ble_write_timer s) (tasks s) (display s) (trace s).

Definition set_pRemoteCharacteristic (v : option BLERemoteCharacteristic) (s : State) : State :=
  mkState (connected s) v (myDevice s) (pClient s) (bleMutex s)
    (writeTaskHandle s) (initialReadTaskHandle s) (target_weight s)
    (weight_buffer s) (ble_write_timer s) (tasks s) (display s) (trace s).

Definition set_myDevice (v : option BLEAdvertisedDevice) (s : State) : State :=
  mkState (connected s) (pRemoteCharacteristic s) v (pClient s) (bleMutex s)
    (writeTaskHandle s) (initialReadTaskHandle s) (target_weight s)
    (weight_buffer s) (ble_write_timer s) (tasks s) (display s) (trace s).

Definition set_pClient (v : option BLEClient) (s : State) : State :=
  mkState (connected s) (pRemoteCharacteristic s) (myDevice s) v (bleMutex s)
    (writeTaskHandle s) (initialReadTaskHandle s) (target_weight s)
    (weight_buffer s) (ble_write_timer s) (tasks s) (display s) (trace s).

Definition set_bleMutex (v : option TaskFn) (s : State) : State :=
  mkState (connected s) (pRemoteCharacteristic s) (myDevice s) (pClient s) v
    (writeTaskHandle s) (initialReadTaskHandle s) (target_weight s)
    (weight_buffer s) (ble_write_timer s) (tasks s) (display s) (trace s).

Definition set_writeTaskHandle (v : option TaskFn) (s : State) : State :=
  mkState (connected s) (pRemoteCharacteristic s) (myDevice s) (pClient s) (bleMutex s)
    v (initialReadTaskHandle s) (target_weight s)
    (weight_buffer s) (ble_write_timer s) (tasks s) (display s) (trace s).

Definition set_initialReadTaskHandle (v : option TaskFn) (s : State) : State :=
  mkState (connected s) (pRemoteCharacteristic s) (myDevice s) (pClient s) (bleMutex s)
    (writeTaskHandle s) v (target_weight s)
    (weight_buffer s) (ble_write_timer s) (tasks s) (display s) (trace s).

Definition set_target_weight (v : Z) (s : State) : State :=
  mkState (connected s) (pRemoteCharacteristic s) (myDevice s) (pClient s) (bleMutex s)
    (writeTaskHandle s) (initialReadTaskHandle s) v
    (weight_buffer s) (ble_write_timer s) (tasks s) (display s) (trace s).

Definition set_weight_buffer (v : Z) (s : State) : State :=
  mkState (connected s) (pRemoteCharacteristic s) (myDevice s) (pClient s) (bleMutex s)
    (writeTaskHandle s) (initialReadTaskHandle s) (target_weight s)
    v (ble_write_timer s) (tasks s) (display s) (trace s).

Definition set_tasks (v : list TaskFn) (s : State) : State :=
  mkState (connected s) (pRemoteCharacteristic s) (myDevice s) (pClient s) (bleMutex s)
    (writeTaskHandle s) (initialReadTaskHandle s) (target_weight s)
    (weight_buffer s) (ble_write_timer s) v (display s) (trace s).

Definition set_display (v : Display) (s : State) : State :=
  mkState (connected s) (pRemoteCharacteristic s) (myDevice s) (pClient s) (bleMutex s)
    (writeTaskHandle s) (initialReadTaskHandle s) (target_weight s)
    (weight_buffer s) (ble_write_timer s) (tasks s) v (trace s).

Definition set_trace (v : list Event) (s : State) : State :=
  mkState (connected s) (pRemoteCharacteristic s) (myDevice s) (pClient s) (bleMutex s)
    (writeTaskHandle s) (initialReadTaskHandle s) (target_weight s)
    (weight_buffer s) (ble_write_timer s) (tasks s) (display s) v.

(** ** The state monad *)

Definition M (A : Type) : Type := State -> A * State.

Definition ret {A : Type} (a : A) : M A := fun s => (a, s).

Definition bind {A B : Type} (m : M A) (k : A -> M B) : M B :=
  fun s => let (a, s') := m s in k a s'.

Definition get {A : Type} (field : State -> A) : M A := fun s => (field s, s).

Definition modify (f : State -> State) : M unit := fun s => (tt, f s).

Definition emit (e : Event) : M unit :=
  modify (fun s => set_trace (e :: trace s) s).

Declare Scope ble_scope.
Delimit Scope ble_scope with ble.
Notation "x <- c1 ;; c2" := (bind c1 (fun x => c2))
  (at level 61, c1 at next level, right associativity) : ble_scope.
Notation "c1 ;; c2" := (bind c1 (fun _ => c2))
  (at level 61, right associativity) : ble_scope.
Open Scope ble_scope.

Definition exec {A : Type} (m : M A) (s : State) : State := snd (m s).
Definition eval {A : Type} (m : M A) (s : State) : A := fst (m s).

(** ** What the UI has last been told

    Status and the verified indicator are not variables of the program:
    they are whatever the display module was last called with. *)

Fixpoint last_status (t : list Event) : option ble_status_t :=
  match t with
  | [] => None
  | EvStatus st :: _ => Some st
  | _ :: t' => last_status t'
  end.

Fixpoint last_checkmark (t : list Event) : option bool :=
  match t with
  | [] => None
  | EvCheckmark shown :: _ => Some shown
  | _ :: t' => last_checkmark t'
  end.

Fixpoint last_display_value (t : list Event) : option Z :=
  match t with
  | [] => None
  | EvDisplayValue w :: _ => Some w
  | _ :: t' => last_display_value t'
  end.

Definition Status (s : State) : option ble_status_t := last_status (trace s).
Definition verified (s : State) : option bool := last_checkmark (trace s).
Definition displayed (s : State) : option Z := last_display_value (trace s).

(** ** Display functions ([lvgl_display.cpp]) *)

Definition status_colour (status : ble_status_t) : Z * Z * Z :=
  match status with
  | BLE_STATUS_DISCONNECTED => (128, 128, 128)
  | BLE_STATUS_CONNECTING => (0, 123, 255)
  | BLE_STATUS_CONNECTED => (40, 167, 69)
  | BLE_STATUS_FAILED => (220, 53, 69)
  end.

Definition update_display_value (weight : Z) : M unit :=
  emit (EvDisplayValue weight) ;;
  modify (fun s =>
    let d := display s in
    match weight_label d with
    | Some _ => set_display (mkDisplay (ble_status_label d) (Some weight) (checkmark_label d)) s
    | None => s
    end).

Definition show_verification_checkmark : M unit :=
  emit (EvCheckmark true) ;;
  modify (fun s =>
    let d := display s in
    match checkmark_label d with
    | Some _ => set_display (mkDisplay (ble_status_label d) (weight_label d) (Some false)) s
    | None => s
    end).

Definition hide_verification_checkmark : M unit :=
  emit (EvCheckmark false) ;;
  modify (fun s =>
    let d := display s in
    match checkmark_label d with
    | Some _ => set_display (mkDisplay (ble_status_label d) (weight_label d) (Some true)) s
    | None => s
    end).

Definition update_ble_status (status : ble_status_t) : M unit :=
  emit (EvStatus status) ;;
  modify (fun s =>
    let d := display s in
    match ble_status_label d with
    | None => s
    | Some _ => set_display (mkDisplay (Some (status_colour status)) (weight_label d) (checkmark_label d)) s
    end).

(** ** BLE client callbacks ([MyClientCallback]) *)

Definition onConnect : M unit :=
  modify (set_connected true) ;;
  update_ble_status BLE_STATUS_CONNECTED.

Definition onDisconnect : M unit :=
  modify (set_connected false) ;;
  modify (set_pRemoteCharacteristic None) ;;
  update_ble_status BLE_STATUS_DISCONNECTED.

(** ** The BLE library and FreeRTOS, as far as the client relies on them

    The library keeps its own connection flag, sets it from the result of
    [connect], and updates it just before it invokes a client callback.
    [disconnect] only requests the teardown: the flag falls when the
    disconnect event is delivered.  Callbacks are delivered at the points
    where the code waits for them, the delays. *)

Definition lib_set_link (up : bool) : M unit :=
  modify (fun s =>
    match pClient s with
    | Some _ => set_pClient (Some (mkClient up)) s
    | None => s
    end).

Definition deliver (cb : Callback) : M unit :=
  match cb with
  | OnConnect => lib_set_link true ;; onConnect
  | OnDisconnect => lib_set_link false ;; onDisconnect
  end.

Fixpoint deliver_all (cbs : list Callback) : M unit :=
  match cbs with
  | [] => ret tt
  | cb :: rest => deliver cb ;; deliver_all rest
  end.

Definition vTaskDelay (ms : Z) (cbs : list Callback) : M unit :=
  emit (EvTaskDelay ms) ;;
  deliver_all cbs.

(** [xSemaphoreTake(bleMutex, pdMS_TO_TICKS(15000)) == pdTRUE]: whether the
    mutex is obtained within the timeout depends on the other tasks. *)
Definition xSemaphoreTake (who : TaskFn) (granted : bool) : M bool :=
  emit (EvSemaphoreTake who granted) ;;
  (if granted then modify (set_bleMutex (Some who)) else ret tt) ;;
  ret granted.

Definition xSemaphoreGive : M unit :=
  emit EvSemaphoreGive ;;
  modify (set_bleMutex None).

Fixpoint remove_task (fn : TaskFn) (l : list TaskFn) : list TaskFn :=
  match l with
  | [] => []
  | t :: l' => if TaskFn_eqb fn t then l' else t :: remove_task fn l'
  end.

(** [vTaskDelete(NULL)]: the calling task deletes itself. *)
Definition vTaskDelete (self : TaskFn) : M unit :=
  emit (EvTaskDelete self) ;;
  modify (fun s => set_tasks (remove_task self (tasks s)) s).

(** [xTaskCreate(...) == pdPASS]; on success the task exists and its handle
    has been stored through the last argument. *)
Definition xTaskCreate (fn : TaskFn) (set_handle : option TaskFn -> State -> State)
    (created : bool) : M bool :=
  emit (EvTaskCreate fn created) ;;
  (if created
   then modify (fun s => set_handle (Some fn) (set_tasks (fn :: tasks s) s))
   else ret tt) ;;
  ret created.

(** ** Core BLE functions ([ble_client.cpp]) *)

(** What the outside world answers during one [connectToServer]. *)
Record ConnectEnv : Type := mkConnectEnv {
  scan_start : option (list BLEAdvertisedDevice);  (* pScan->start(5, false); None: nullptr *)
  client_connect : bool;                           (* pClient->connect(myDevice) *)
  settle_callbacks : list Callback;                (* delivered by the end of the 100 ms delay *)
  get_service : CallResult bool;                   (* getService: a non-null service? *)
  get_characteristic : CallResult (option BLERemoteCharacteristic);
  get_descriptor : bool;                           (* descriptor 0x2902 is present *)
  descriptor_write : bool                          (* pDesc->writeValue(...) *)
}.

(** The loop [for (int i = 0; i < results->getCount(); i++)] of step 2;
    [remaining] is [getCount() - i]. *)
Fixpoint find_target_device (results : list BLEAdvertisedDevice) (i remaining : nat) : M unit :=
  match remaining with
  | O => ret tt
  | S remaining' =>
      match nth_error results i with
      | Some device =>
          if isAdvertisingService device serviceUUID
          then modify (set_myDevice (Some device))              (* break *)
          else find_target_device results (S i) remaining'
      | None => ret tt
      end
  end.

Definition connectToServer (env : ConnectEnv) : M bool :=
  already <- get connected ;;
  if already then ret true
  else
    update_ble_status BLE_STATUS_CONNECTING ;;
    (* 1. scan *)
    emit EvScanStart ;;
    match scan_start env with
    | None => update_ble_status BLE_STATUS_FAILED ;; ret false
    | Some results =>
        modify (set_myDevice None) ;;
        (* 2. iterate results *)
        find_target_device results 0 (length results) ;;
        emit EvScanClearResults ;;
        (* 3. device found? *)
        found <- get myDevice ;;
        match found with
        | None => update_ble_status BLE_STATUS_FAILED ;; ret false
        | Some device =>
            (* 4. create client and connect *)
            client <- get pClient ;;
            (match client with
             | None => emit EvCreateClient ;; modify (set_pClient (Some (mkClient false)))
             | Some _ => ret tt
             end) ;;
            emit (EvClientConnect device) ;;
            lib_set_link (client_connect env) ;;
            if negb (client_connect env)
            then update_ble_status BLE_STATUS_FAILED ;; ret false
            else
              vTaskDelay 100 (settle_callbacks env) ;;
              (* 5. service and characteristic *)
              emit EvGetService ;;
              match get_service env with
              | Returned true =>
                  emit EvGetCharacteristic ;;
                  (match get_characteristic env with
                   | Returned c => modify (set_pRemoteCharacteristic c)
                   | Threw => ret tt
                   end) ;;
                  chr <- get pRemoteCharacteristic ;;
                  match chr with
                  | None =>
                      emit EvClientDisconnect ;;
                      update_ble_status BLE_STATUS_FAILED ;;
                      ret false
                  | Some c =>
                      (if canNotify c
                       then if get_descriptor env
                            then emit EvDescriptorWrite ;;
                                 if descriptor_write env
                                 then emit EvRegisterForNotify
                                 else ret tt
                            else ret tt
                       else ret tt) ;;
                      update_ble_status BLE_STATUS_CONNECTED ;;
                      ret true
                  end
              | _ =>
                  emit EvClientDisconnect ;;
                  update_ble_status BLE_STATUS_FAILED ;;
                  ret false
              end
        end
    end.

Definition disconnectFromServer : M unit :=
  client <- get pClient ;;
  (match client with
   | Some c => if isConnected c then emit EvClientDisconnect else ret tt
   | None => ret tt
   end) ;;
  modify (set_connected false) ;;
  modify (set_pRemoteCharacteristic None) ;;
  update_ble_status BLE_STATUS_DISCONNECTED.

(** [internal_read_weight]: "returns weight or -1 on error".  [read_value]
    is what [pRemoteCharacteristic->readValue()] does when it is called. *)
Definition internal_read_weight (read_value : CallResult (list byte)) : M Z :=
  c <- get connected ;;
  chr <- get pRemoteCharacteristic ;;
  match c, chr with
  | true, Some ch =>
      if canRead ch then
        emit EvReadValue ;;
        match read_value with
        | Threw => ret (-1)
        | Returned value =>
            match value with
            | b :: _ => ret (Int8.of_byte b)
            | [] => ret (-1)
            end
        end
      else ret (-1)
  | _, _ => ret (-1)
  end.

(** [internal_write_weight]; [write_value] is what
    [pRemoteCharacteristic->writeValue(&weight, 1, true)] does. *)
Definition internal_write_weight (write_value : CallResult bool) (weight : Z) : M bool :=
  c <- get connected ;;
  chr <- get pRemoteCharacteristic ;;
  match c, chr with
  | true, Some ch =>
      if canWrite ch then
        emit (EvWriteValue (Int8.to_byte weight)) ;;
        let writeSuccess := match write_value with Threw => false | Returned b => b end in
        if writeSuccess then ret true else ret false
      else ret false
  | _, _ => ret false
  end.

(** ** FreeRTOS tasks *)

(** What the outside world answers during one pass of the retry loop. *)
Record AttemptEnv : Type := mkAttemptEnv {
  ir_take : bool;
  ir_connect : ConnectEnv;
  ir_read : CallResult (list byte);
  ir_backoff : list Callback                 (* delivered during the 5 s delay *)
}.

(** One pass through the body of [while(true)], up to the [break] or to the
    end of the [if]; the result is [true] when the pass ends in [break]. *)
Definition initial_read_attempt (a : AttemptEnv) : M bool :=
  took <- xSemaphoreTake InitialReadTask (ir_take a) ;;
  if took then
    ok <- connectToServer (ir_connect a) ;;
    if ok then
      initial_weight <- internal_read_weight (ir_read a) ;;
      disconnectFromServer ;;
      if negb (initial_weight =? -1) then
        modify (set_target_weight initial_weight) ;;
        w <- get target_weight ;;
        update_display_value w ;;
        show_verification_checkmark ;;
        update_ble_status BLE_STATUS_DISCONNECTED ;;
        xSemaphoreGive ;;
        ret true                                              (* break *)
      else
        update_ble_status BLE_STATUS_FAILED ;;
        xSemaphoreGive ;;
        ret false
    else
      xSemaphoreGive ;;
      ret false
  else
    update_ble_status BLE_STATUS_FAILED ;;
    ret false.

(** The loop has either left through [break], with the answers it did not
    consume, or it is still retrying when the given answers run out. *)
Inductive LoopResult : Type :=
| Exited (s : State) (unused : list AttemptEnv)
| Retrying (s : State).

Fixpoint initial_read_loop (attempts : list AttemptEnv) (s : State) : LoopResult :=
  match attempts with
  | [] => Retrying s
  | a :: rest =>
      let (done, s') := initial_read_attempt a s in
      if done then Exited s' rest
      else initial_read_loop rest (exec (vTaskDelay 5000 (ir_backoff a)) s')
  end.

Definition initial_read_epilogue : M unit :=
  modify (set_initialReadTaskHandle None) ;;
  vTaskDelete InitialReadTask.

Definition initial_read_task (boot_callbacks : list Callback)
    (attempts : list AttemptEnv) (s : State) : LoopResult :=
  match initial_read_loop attempts (exec (vTaskDelay 1000 boot_callbacks) s) with
  | Exited s' unused => Exited (exec initial_read_epilogue s') unused
  | Retrying s' => Retrying s'
  end.

(** What the outside world answers during one [write_verify_task]. *)
Record WriteVerifyEnv : Type := mkWriteVerifyEnv {
  wv_take : bool;
  wv_connect : ConnectEnv;
  wv_before_write : list Callback;           (* during the 100 ms delay *)
  wv_write : CallResult bool;
  wv_before_read : list Callback;            (* during the 200 ms delay *)
  wv_read : CallResult (list byte);
  wv_after_disconnect : list Callback        (* during the 500 ms delay *)
}.

(** The task returns nothing; the model returns its local [final_success]. *)
Definition write_verify_task (env : WriteVerifyEnv) : M bool :=
  weight_to_write <- get weight_buffer ;;
  took <- xSemaphoreTake WriteVerifyTask (wv_take env) ;;
  final_success <-
    (if took then
       ok <- connectToServer (wv_connect env) ;;
       success <-
         (if ok then
            vTaskDelay 100 (wv_before_write env) ;;
            wrote <- internal_write_weight (wv_write env) weight_to_write ;;
            success <-
              (if wrote then
                 vTaskDelay 200 (wv_before_read env) ;;
                 read_value <- internal_read_weight (wv_read env) ;;
                 if read_value =? weight_to_write then
                   modify (set_target_weight weight_to_write) ;;
                   w <- get target_weight ;;
                   update_display_value w ;;
                   show_verification_checkmark ;;
                   ret true
                 else
                   hide_verification_checkmark ;;
                   update_ble_status BLE_STATUS_FAILED ;;
                   ret false
               else
                 hide_verification_checkmark ;;
                 update_ble_status BLE_STATUS_FAILED ;;
                 ret false) ;;
            disconnectFromServer ;;
            vTaskDelay 500 (wv_after_disconnect env) ;;
            ret success
          else
            hide_verification_checkmark ;;
            ret false) ;;
       xSemaphoreGive ;;
       ret success
     else
       hide_verification_checkmark ;;
       update_ble_status BLE_STATUS_FAILED ;;
       ret false) ;;
  (if final_success then update_ble_status BLE_STATUS_DISCONNECTED else ret tt) ;;
  modify (set_writeTaskHandle None) ;;
  vTaskDelete WriteVerifyTask ;;
  ret final_success.

(** ** Public functions *)

Definition ble_perform_initial_read (created : bool) : M unit :=
  h <- get initialReadTaskHandle ;;
  match h with
  | Some _ => ret tt
  | None =>
      taskCreated <- xTaskCreate InitialReadTask set_initialReadTaskHandle created ;;
      if negb taskCreated then
        modify (set_initialReadTaskHandle None) ;;
        update_ble_status BLE_STATUS_FAILED
      else ret tt
  end.

Definition write_target_weight (created : bool) (weight : Z) : M unit :=
  hw <- get writeTaskHandle ;;
  hr <- get initialReadTaskHandle ;;
  match hw, hr with
  | None, None =>
      modify (set_weight_buffer weight) ;;
      hide_verification_checkmark ;;
      update_ble_status BLE_STATUS_CONNECTING ;;
      taskCreated <- xTaskCreate WriteVerifyTask set_writeTaskHandle created ;;
      if negb taskCreated then
        modify (set_writeTaskHandle None) ;;
        update_ble_status BLE_STATUS_FAILED ;;
        hide_verification_checkmark
      else ret tt
  | _, _ => ret tt
  end.

Definition ble_client_init : M unit :=
  modify (set_bleMutex None) ;;
  update_ble_status BLE_STATUS_DISCONNECTED.

(** ** Rotary encoder module *)

Definition ble_write_timer_callback (created : bool) : M unit :=
  w <- get target_weight ;;
  write_target_weight created w.

Definition xTimerReset_ble_write_timer : M unit :=
  t <- get ble_write_timer ;;
  if t then emit EvTimerReset else ret tt.

Definition knob_left_cb (current_screen : Screen) : M unit :=
  emit EvResetInactivity ;;
  match current_screen with
  | screen_shot_stopper =>
      modify (fun s => set_target_weight (Int8.wrap (target_weight s - 1)) s) ;;
      hide_verification_checkmark ;;
      w <- get target_weight ;;
      update_display_value w ;;
      xTimerReset_ble_write_timer
  | screen_ha => emit (EvHaEncoderTurn (-1))
  | screen_other => ret tt
  end.

Definition knob_right_cb (current_screen : Screen) : M unit :=
  emit EvResetInactivity ;;
  match current_screen with
  | screen_shot_stopper =>
      modify (fun s => set_target_weight (Int8.wrap (target_weight s + 1)) s) ;;
      hide_verification_checkmark ;;
      w <- get target_weight ;;
      update_display_value w ;;
      xTimerReset_ble_write_timer
  | screen_ha => emit (EvHaEncoderTurn 1)
  | screen_other => ret tt
  end.

(** The globals as their initialisers leave them, with the Shot Stopper
    screen loaded. *)
Definition boot_state : State :=
  mkState false None None None None None None 36 0 true []
    (mkDisplay (Some (255, 255, 255)) (Some 36) (Some true)) [].

(** * The vocabulary of the properties

    Nothing below this line is part of the program.  First the relations
    between the state before and the state after a computation that the
    proofs carry through the code, then the observations that the
    statements are written in, the model of requests and task runs, and
    the example inputs. *)

(** ** Relations between the state before and the state after

    [disconnectFromServer], the two primitives, the callbacks and the
    delays touch the link fields, the status label and the trace; they call
    neither the checkmark functions nor [update_display_value], and they
    start no scan and no connection.  A relation that is closed under those
    steps is respected by all of them, and by the parts of
    [connectToServer] around its scan and its connect. *)

(** The events a link-layer step may add to the trace at any point. *)
Definition quiet (e : Event) : bool :=
  match e with
  | EvCheckmark _ | EvDisplayValue _ | EvScanStart | EvClientConnect _ => false
  | _ => true
  end.

Class LinkInvariant (R : State -> State -> Prop) : Prop := {
  li_refl : forall s, R s s;
  li_trans : forall s1 s2 s3, R s1 s2 -> R s2 s3 -> R s1 s3;
  li_emit : forall e s, quiet e = true -> R s (set_trace (e :: trace s) s);
  li_display : forall d s, R s (set_display d s);
  li_connected : forall v s, R s (set_connected v s);
  li_characteristic : forall v s, R s (set_pRemoteCharacteristic v s);
  li_client : forall v s, R s (set_pClient v s)
}.

(** Every run of [m] relates the state it starts in to the state it ends in. *)
Definition respects (R : State -> State -> Prop) {A : Type} (m : M A) : Prop :=
  forall s, R s (exec m s).

(** What belongs to the layers above the link. *)
Record link_frame (s s' : State) : Prop := mkFrame {
  fr_target : target_weight s' = target_weight s;
  fr_buffer : weight_buffer s' = weight_buffer s;
  fr_write_handle : writeTaskHandle s' = writeTaskHandle s;
  fr_read_handle : initialReadTaskHandle s' = initialReadTaskHandle s;
  fr_tasks : tasks s' = tasks s;
  fr_timer : ble_write_timer s' = ble_write_timer s;
  fr_mutex : bleMutex s' = bleMutex s;
  fr_verified : verified s' = verified s;
  fr_displayed : displayed s' = displayed s
}.

(** The stored device. *)
Definition same_device (s s' : State) : Prop := myDevice s' = myDevice s.

(** Target Value and the verified indicator. *)
Definition ui_frame (s s' : State) : Prop :=
  target_weight s' = target_weight s /\ verified s' = verified s.

(** How many scans and connections have been started. *)
Definition is_scan (e : Event) : bool :=
  match e with EvScanStart => true | _ => false end.

Definition is_connect (e : Event) : bool :=
  match e with EvClientConnect _ => true | _ => false end.

Definition scans (s : State) : nat := length (filter is_scan (trace s)).
Definition connects (s : State) : nat := length (filter is_connect (trace s)).

Definition scan_frame (s s' : State) : Prop :=
  scans s' = scans s /\ connects s' = connects s.

(** The coordinator's own fields. *)
Record coord_frame (s s' : State) : Prop := mkCoordFrame {
  cf_tasks : tasks s' = tasks s;
  cf_write_handle : writeTaskHandle s' = writeTaskHandle s;
  cf_read_handle : initialReadTaskHandle s' = initialReadTaskHandle s
}.

(** ** Observations *)

(** The test of the scan loop. *)
Definition advertises_target (device : BLEAdvertisedDevice) : bool :=
  isAdvertisingService device serviceUUID.

(** Nothing is up: the flag is clear, the handle is null, and the client
    does not exist or reports no connection. *)
Definition already_disconnected (s : State) : bool :=
  negb (connected s) &&
  match pRemoteCharacteristic s with None => true | Some _ => false end &&
  match pClient s with None => true | Some c => negb (isConnected c) end.

(** The state with the display module's part (labels and trace) masked. *)
Definition core (s : State) : State :=
  set_display (mkDisplay None None None) (set_trace [] s).

(** The state with the trace masked. *)
Definition untraced (s : State) : State := set_trace [] s.

(** *** The points of one run at which the outside world is consulted *)

Section WriteVerifyRun.

Variable env : WriteVerifyEnv.
Variable s : State.

Definition wv_at_connect : State :=
  exec (xSemaphoreTake WriteVerifyTask (wv_take env)) s.

(** The mutex was obtained and [connectToServer] returned true. *)
Definition wv_connected : bool :=
  wv_take env && eval (connectToServer (wv_connect env)) wv_at_connect.

Definition wv_at_write : State :=
  exec (vTaskDelay 100 (wv_before_write env))
    (exec (connectToServer (wv_connect env)) wv_at_connect).

(** The result of [internal_write_weight(weight_to_write)]. *)
Definition wv_wrote : bool :=
  eval (internal_write_weight (wv_write env) (weight_buffer s)) wv_at_write.

Definition wv_at_read : State :=
  exec (vTaskDelay 200 (wv_before_read env))
    (exec (internal_write_weight (wv_write env) (weight_buffer s)) wv_at_write).

(** The result of the read-back [internal_read_weight()]. *)
Definition wv_read_value : Z :=
  eval (internal_read_weight (wv_read env)) wv_at_read.

End WriteVerifyRun.

(** A callback notifies Connected or Disconnected, never Failed. *)
Definition link_status (s : State) : Prop :=
  Status s = Some BLE_STATUS_DISCONNECTED \/ Status s = Some BLE_STATUS_CONNECTED.

(** *** How one call of [internal_read_weight] ends

    The four ways out of the function; only the first one delivers a
    payload, the other three are its errors. *)

Inductive ReadOutcome : Type :=
| ReadByte (b : byte)
| ReadException
| ReadNoData
| ReadNotPossible.

Definition read_outcome (read_value : CallResult (list byte)) (s : State) : ReadOutcome :=
  match connected s, pRemoteCharacteristic s with
  | true, Some ch =>
      if canRead ch then
        match read_value with
        | Threw => ReadException
        | Returned (b :: _) => ReadByte b
        | Returned [] => ReadNoData
        end
      else ReadNotPossible
  | _, _ => ReadNotPossible
  end.

Definition read_failed (o : ReadOutcome) : bool :=
  match o with
  | ReadByte _ => false
  | _ => true
  end.

(** The state the loop has reached, whether it has ended or not. *)
Definition loop_state (r : LoopResult) : State :=
  match r with
  | Exited s _ => s
  | Retrying s => s
  end.

(** *** One pass of the retry loop *)

Section InitialReadAttempt.

Variable a : AttemptEnv.
Variable s : State.

Definition ir_at_connect : State :=
  exec (xSemaphoreTake InitialReadTask (ir_take a)) s.

(** The mutex was obtained and [connectToServer] returned true. *)
Definition ir_connected : bool :=
  ir_take a && eval (connectToServer (ir_connect a)) ir_at_connect.

Definition ir_at_read : State :=
  exec (connectToServer (ir_connect a)) ir_at_connect.

(** The result of [internal_read_weight()]. *)
Definition ir_read_value : Z :=
  eval (internal_read_weight (ir_read a)) ir_at_read.

Definition attempt_succeeds : bool :=
  ir_connected && negb (ir_read_value =? -1).

(** The state in which the next pass starts. *)
Definition after_failed_attempt : State :=
  exec (vTaskDelay 5000 (ir_backoff a)) (exec (initial_read_attempt a) s).

End InitialReadAttempt.

(** Each pass of [pre], started where the one before left off, fails. *)
Fixpoint all_fail (pre : list AttemptEnv) (s : State) : bool :=
  match pre with
  | [] => true
  | a :: rest => negb (attempt_succeeds a s) && all_fail rest (after_failed_attempt a s)
  end.

(** The state in which the pass after those of [pre] starts. *)
Fixpoint after_failed_attempts (pre : list AttemptEnv) (s : State) : State :=
  match pre with
  | [] => s
  | a :: rest => after_failed_attempts rest (after_failed_attempt a s)
  end.

(** ** The coordinator as a transition system *)

(** *** Requests, task exits and all other code, in any order

    The task list and the two handles are written in three kinds of
    places: in the two public functions, which create the tasks; in the
    statement [handle = NULL] of a task; and in the statement
    [vTaskDelete(NULL)] that follows it.  Each of them is a step of its
    own, so that a request can fall between the last two statements of a
    task, when the handle is already clear and the task still exists.
    All other code (the tasks before these two statements, the BLE
    callbacks, the knob handlers) runs concurrently and can be preempted
    anywhere; it leaves the task list and the handles alone, and is
    covered by [OtherCode], a step to any state that agrees with the
    current one on them.  Every interleaving of the real program, at any
    granularity, is among the runs.

    The two public functions are steps of their own: each has one caller
    (the timer callback, [app_init]), and no other code sets a handle, so
    what a call finds when it tests the handles still holds for its own
    handle when it creates its task. *)

Inductive SysEvent : Type :=
| RequestWrite (weight : Z) (created : bool)
| RequestInitialRead (created : bool)
| OtherCode (s' : State)
| TaskClearsHandle (fn : TaskFn)
| TaskDeletesItself (fn : TaskFn).

(** The number of existing tasks that run [fn]. *)
Definition count_tasks (fn : TaskFn) (s : State) : nat :=
  length (filter (TaskFn_eqb fn) (tasks s)).

(** The program's state, and the tasks that have executed [handle = NULL]
    but not yet [vTaskDelete(NULL)].  The second component is bookkeeping:
    no code reads it. *)
Record System : Type := mkSystem {
  sys_state : State;
  exiting : list TaskFn
}.

Definition count_exiting (fn : TaskFn) (y : System) : nat :=
  length (filter (TaskFn_eqb fn) (exiting y)).

(** The tasks of [fn] that are still in their operation: they exist and
    have not yet cleared their handle. *)
Definition operating (fn : TaskFn) (y : System) : nat :=
  count_tasks fn (sys_state y) - count_exiting fn y.

Definition handle_eqb (a b : option TaskFn) : bool :=
  match a, b with
  | None, None => true
  | Some x, Some y => TaskFn_eqb x y
  | _, _ => false
  end.

Fixpoint tasks_eqb (a b : list TaskFn) : bool :=
  match a, b with
  | [], [] => true
  | x :: a', y :: b' => TaskFn_eqb x y && tasks_eqb a' b'
  | _, _ => false
  end.

(** The two states have the same task list and the same handles. *)
Definition same_coordinator (s s' : State) : bool :=
  tasks_eqb (tasks s) (tasks s') &&
  handle_eqb (writeTaskHandle s) (writeTaskHandle s') &&
  handle_eqb (initialReadTaskHandle s) (initialReadTaskHandle s').

(** The handle of the task function [fn]. *)
Definition set_handle (fn : TaskFn) : option TaskFn -> State -> State :=
  match fn with
  | WriteVerifyTask => set_writeTaskHandle
  | InitialReadTask => set_initialReadTaskHandle
  end.

Definition sys_step (y : System) (e : SysEvent) : System :=
  match e with
  | RequestWrite weight created =>
      mkSystem (exec (write_target_weight created weight) (sys_state y)) (exiting y)
  | RequestInitialRead created =>
      mkSystem (exec (ble_perform_initial_read created) (sys_state y)) (exiting y)
  | OtherCode s' =>
      if same_coordinator (sys_state y) s' then mkSystem s' (exiting y) else y
  | TaskClearsHandle fn =>
      (* [handle = NULL], by a task that is still in its operation *)
      match operating fn y with
      | O => y
      | S _ =>
          mkSystem (exec (modify (set_handle fn None)) (sys_state y)) (fn :: exiting y)
      end
  | TaskDeletesItself fn =>
      (* [vTaskDelete(NULL)], by a task that has cleared its handle *)
      match count_exiting fn y with
      | O => y
      | S _ =>
          mkSystem (exec (vTaskDelete fn) (sys_state y)) (remove_task fn (exiting y))
      end
  end.

Definition sys_run (events : list SysEvent) (y : System) : System :=
  fold_left sys_step events y.

Definition boot_system : System := mkSystem boot_state [].

(** A handle is set exactly while a task of its function is in its
    operation; the other existing tasks of that function are those that
    have only their deletion left. *)
Definition handle_count (h : option TaskFn) : nat :=
  match h with
  | Some _ => 1
  | None => 0
  end.

Record coordinator_ok (y : System) : Prop := mkCoordinatorOk {
  ok_write : count_tasks WriteVerifyTask (sys_state y)
             = (handle_count (writeTaskHandle (sys_state y))
                + count_exiting WriteVerifyTask y)%nat;
  ok_read : count_tasks InitialReadTask (sys_state y)
            = (handle_count (initialReadTaskHandle (sys_state y))
               + count_exiting InitialReadTask y)%nat
}.

(** The test of [write_target_weight]: one of the two handles is set. *)
Definition in_flight (s : State) : bool :=
  match writeTaskHandle s, initialReadTaskHandle s with
  | None, None => false
  | _, _ => true
  end.

(** ** Example inputs *)

(** Three advertisers; the last two offer the service, the last one with
    the strongest signal. *)
Definition dev_other : BLEAdvertisedDevice := mkDevice 0xA1 (-80) [0x1800%N].
Definition dev_scale : BLEAdvertisedDevice := mkDevice 0xB2 (-70) [0x1800%N; 0xffe%N].
Definition dev_scale_near : BLEAdvertisedDevice := mkDevice 0xC3 (-40) [0xffe%N].

Definition chr_rw : BLERemoteCharacteristic := mkCharacteristic true true false.

(** A peripheral in range that accepts the connection. *)
Definition env_reachable : ConnectEnv :=
  mkConnectEnv (Some [dev_other; dev_scale; dev_scale_near]) true [OnConnect]
    (Returned true) (Returned (Some chr_rw)) false false.

(** No advertiser of the service in range. *)
Definition env_absent : ConnectEnv :=
  mkConnectEnv (Some [dev_other]) true [] (Returned true) (Returned (Some chr_rw))
    false false.

(** The state left by a connect attempt that found no advertiser. *)
Definition state_after_failed_scan : State := exec (connectToServer env_absent) boot_state.

(** The peripheral holds 40 and is reachable when the controller boots. *)
Definition env_boot_read_40 : AttemptEnv :=
  mkAttemptEnv true env_reachable (Returned [Int8.to_byte 40]) [].

(** The controller has booted and its initial read has succeeded. *)
Definition state_after_boot : State :=
  loop_state
    (initial_read_task [] [env_boot_read_40]
       (exec (ble_perform_initial_read true) (exec ble_client_init boot_state))).

(** [n] turns of the knob on the Shot Stopper screen. *)
Fixpoint turns (knob_cb : Screen -> M unit) (n : nat) (s : State) : State :=
  match n with
  | O => s
  | S n' => turns knob_cb n' (exec (knob_cb screen_shot_stopper) s)
  end.

(** The knob is turned from 40 up to 50; a second later the timer fires. *)
Definition state_write_50 : State :=
  exec (ble_write_timer_callback true) (turns knob_right_cb 10 state_after_boot).

(** The knob is turned from 40 down past 0 to -1; the timer fires. *)
Definition state_write_minus_1 : State :=
  exec (ble_write_timer_callback true) (turns knob_left_cb 41 state_after_boot).

(** The peripheral acknowledges the write but then answers 48. *)
Definition env_reads_48 : WriteVerifyEnv :=
  mkWriteVerifyEnv true env_reachable [] (Returned true) [] (Returned [Int8.to_byte 48])
    [OnDisconnect].

(** The peripheral acknowledges the write; the read-back throws. *)
Definition env_read_throws : WriteVerifyEnv :=
  mkWriteVerifyEnv true env_reachable [] (Returned true) [] Threw [OnDisconnect].

(** The peripheral acknowledges the write; the read-back is empty. *)
Definition env_read_empty : WriteVerifyEnv :=
  mkWriteVerifyEnv true env_reachable [] (Returned true) [] (Returned []) [OnDisconnect].

(** The peripheral acknowledges the write and drops the link before the
    read-back. *)
Definition env_link_drops : WriteVerifyEnv :=
  mkWriteVerifyEnv true env_reachable [] (Returned true) [OnDisconnect] (Returned [xff]) [].

(** No advertiser in range during this pass. *)
Definition attempt_absent : AttemptEnv :=
  mkAttemptEnv true env_absent (Returned []) [].

(** The peripheral holds the byte 0xFF during this pass. *)
Definition attempt_reads_ff : AttemptEnv :=
  mkAttemptEnv true env_reachable (Returned [xff]) [OnDisconnect].

(** The initial read task has just been created. *)
Definition state_spawned : State :=
  exec (ble_perform_initial_read true) (exec ble_client_init boot_state).

(** A write is requested and its task is created; then the initial read is
    requested. *)
Definition events_write_then_initial_read : list SysEvent :=
  [RequestWrite 45 true; RequestInitialRead true].

(** A write is requested and its task is created; the task reaches its
    statement [writeTaskHandle = NULL] (what it did before does not matter
    to the task list and the handles); then another write is requested,
    before the task has deleted itself. *)
Definition events_write_in_exit_window : list SysEvent :=
  [RequestWrite 45 true; TaskClearsHandle WriteVerifyTask; RequestWrite 50 true].

(** Target Value 127 on the Shot Stopper screen, nothing in flight. *)
Definition state_at_127 : State := turns knob_right_cb 87 state_after_boot.

(** Target Value 0 on the Shot Stopper screen, nothing in flight. *)
Definition state_at_0 : State := turns knob_left_cb 40 state_after_boot.

(** * Properties *)

(** ** Arithmetic of [int8_t] *)

Lemma wrap_in_range (z : Z) : Int8.in_range (Int8.wrap z).
Proof.
  unfold Int8.in_range, Int8.wrap.
  pose proof (Z.mod_pos_bound (z + 128) 256 ltac:(lia)). lia.
Qed.

Lemma wrap_id (z : Z) : Int8.in_range z -> Int8.wrap z = z.
Proof.
  unfold Int8.in_range, Int8.wrap. intros H.
  rewrite Z.mod_small by lia. lia.
Qed.

Lemma of_byte_in_range (b : byte) : Int8.in_range (Int8.of_byte b).
Proof. apply wrap_in_range. Qed.

(** ** The monad *)

Lemma bind_run {A B : Type} (m : M A) (k : A -> M B) (s : State) :
  bind m k s = k (eval m s) (exec m s).
Proof. unfold bind, eval, exec. destruct (m s); reflexivity. Qed.

Lemma exec_bind {A B : Type} (m : M A) (k : A -> M B) (s : State) :
  exec (bind m k) s = exec (k (eval m s)) (exec m s).
Proof. unfold exec at 1. rewrite bind_run. reflexivity. Qed.

Lemma eval_bind {A B : Type} (m : M A) (k : A -> M B) (s : State) :
  eval (bind m k) s = eval (k (eval m s)) (exec m s).
Proof. unfold eval at 1. rewrite bind_run. reflexivity. Qed.

Lemma exec_ret {A : Type} (a : A) (s : State) : exec (ret a) s = s.
Proof. reflexivity. Qed.

Lemma eval_ret {A : Type} (a : A) (s : State) : eval (ret a) s = a.
Proof. reflexivity. Qed.

Lemma exec_get {A : Type} (f : State -> A) (s : State) : exec (get f) s = s.
Proof. reflexivity. Qed.

Lemma eval_get {A : Type} (f : State -> A) (s : State) : eval (get f) s = f s.
Proof. reflexivity. Qed.

Lemma exec_modify (f : State -> State) (s : State) : exec (modify f) s = f s.
Proof. reflexivity. Qed.

Lemma exec_emit (e : Event) (s : State) : exec (emit e) s = set_trace (e :: trace s) s.
Proof. reflexivity. Qed.

Lemma run_pair {A : Type} (m : M A) (s : State) : m s = (eval m s, exec m s).
Proof. unfold eval, exec. destruct (m s); reflexivity. Qed.

Create Rewrite HintDb run.
#[local] Hint Rewrite @exec_bind @eval_bind @exec_ret @eval_ret @exec_get
  @eval_get exec_modify exec_emit : run.

(** ** The link layer respects every link invariant *)

Create HintDb respects.

Section Respects.

Context (R : State -> State -> Prop) `{LinkInvariant R}.

Lemma respects_ret {A : Type} (a : A) : respects R (ret a).
Proof. intros s; apply li_refl. Qed.

Lemma respects_get {A : Type} (f : State -> A) : respects R (get f).
Proof. intros s; apply li_refl. Qed.

Lemma respects_bind {A B : Type} (m : M A) (k : A -> M B) :
  respects R m -> (forall a, respects R (k a)) -> respects R (bind m k).
Proof.
  intros Hm Hk s. rewrite exec_bind.
  eapply li_trans; [ apply Hm | apply Hk ].
Qed.

Lemma respects_emit (e : Event) : quiet e = true -> respects R (emit e).
Proof. intros He s. apply li_emit, He. Qed.

Lemma respects_set_connected v : respects R (modify (set_connected v)).
Proof. intros s; apply li_connected. Qed.

Lemma respects_set_pRemoteCharacteristic v :
  respects R (modify (set_pRemoteCharacteristic v)).
Proof. intros s; apply li_characteristic. Qed.

Lemma respects_set_pClient v : respects R (modify (set_pClient v)).
Proof. intros s; apply li_client. Qed.

Lemma respects_lib_set_link (up : bool) : respects R (lib_set_link up).
Proof.
  intros s. unfold lib_set_link. rewrite exec_modify.
  destruct (pClient s); [ apply li_client | apply li_refl ].
Qed.

Lemma respects_update_ble_status (st : ble_status_t) :
  respects R (update_ble_status st).
Proof.
  unfold update_ble_status. apply respects_bind.
  - apply respects_emit; reflexivity.
  - intros _ s. rewrite exec_modify.
    destruct (ble_status_label (display s)); [ apply li_display | apply li_refl ].
Qed.

End Respects.

#[local] Hint Resolve respects_ret respects_get respects_set_connected
  respects_set_pRemoteCharacteristic respects_set_pClient
  respects_lib_set_link respects_update_ble_status : respects.

(** Walks through a monadic body, splitting on whatever a branch tests. *)
Ltac respects_step :=
  match goal with
  | |- respects _ (bind _ _) =>
      apply respects_bind; [ typeclasses eauto | | intros ? ]
  | |- respects _ (emit _) =>
      apply respects_emit; [ typeclasses eauto | reflexivity ]
  | |- respects _ (if ?b then _ else _) => destruct b
  | |- respects _ (match ?x with _ => _ end) => destruct x
  | |- respects _ _ => solve [ auto with respects typeclass_instances ]
  end.

Ltac respects_walk := repeat respects_step.

Section RespectsLink.

Context (R : State -> State -> Prop) `{LinkInvariant R}.

Lemma respects_onConnect : respects R onConnect.
Proof. unfold onConnect. respects_walk. Qed.

Lemma respects_onDisconnect : respects R onDisconnect.
Proof. unfold onDisconnect. respects_walk. Qed.

Hint Resolve respects_onConnect respects_onDisconnect : respects.

Lemma respects_deliver (cb : Callback) : respects R (deliver cb).
Proof. unfold deliver. respects_walk. Qed.

Hint Resolve respects_deliver : respects.

Lemma respects_deliver_all (cbs : list Callback) : respects R (deliver_all cbs).
Proof. induction cbs as [ | cb rest IH ]; cbn [deliver_all]; respects_walk. Qed.

Hint Resolve respects_deliver_all : respects.

Lemma respects_vTaskDelay (ms : Z) (cbs : list Callback) :
  respects R (vTaskDelay ms cbs).
Proof. unfold vTaskDelay. respects_walk. Qed.

Lemma respects_disconnectFromServer : respects R disconnectFromServer.
Proof. unfold disconnectFromServer. respects_walk. Qed.

Lemma respects_internal_read_weight r : respects R (internal_read_weight r).
Proof. unfold internal_read_weight. respects_walk. Qed.

Lemma respects_internal_write_weight r w : respects R (internal_write_weight r w).
Proof. unfold internal_write_weight. respects_walk. Qed.

End RespectsLink.

#[local] Hint Resolve respects_onConnect respects_onDisconnect respects_deliver
  respects_deliver_all respects_vTaskDelay respects_disconnectFromServer
  respects_internal_read_weight respects_internal_write_weight : respects.

(** *** [link_frame]: what belongs to the layers above the link *)

#[export] Instance link_frame_invariant : LinkInvariant link_frame.
Proof.
  constructor.
  - intros s; constructor; reflexivity.
  - intros s1 s2 s3 [] []; constructor; etransitivity; eassumption.
  - intros e s He; constructor; try reflexivity;
      unfold verified, displayed; cbn; destruct e; try reflexivity; discriminate.
  - intros d s; constructor; reflexivity.
  - intros v s; constructor; reflexivity.
  - intros v s; constructor; reflexivity.
  - intros v s; constructor; reflexivity.
Qed.

Lemma link_frame_set_myDevice v : respects link_frame (modify (set_myDevice v)).
Proof. intros s; constructor; reflexivity. Qed.

Lemma link_frame_scan : respects link_frame (emit EvScanStart).
Proof. intros s; constructor; reflexivity. Qed.

Lemma link_frame_connect device : respects link_frame (emit (EvClientConnect device)).
Proof. intros s; constructor; reflexivity. Qed.

#[local] Hint Resolve link_frame_set_myDevice link_frame_scan link_frame_connect : respects.

Lemma link_frame_find_target_device results i n :
  respects link_frame (find_target_device results i n).
Proof.
  revert i; induction n as [ | n IH ]; intros i; cbn [find_target_device].
  - respects_walk.
  - destruct (nth_error results i); [ | respects_walk ].
    destruct (isAdvertisingService _ _); [ respects_walk | apply IH ].
Qed.

#[local] Hint Resolve link_frame_find_target_device : respects.

Lemma link_frame_connectToServer (env : ConnectEnv) :
  respects link_frame (connectToServer env).
Proof. unfold connectToServer. respects_walk. Qed.

#[local] Hint Resolve link_frame_connectToServer : respects.

(** *** [same_device]: the stored device *)

#[export] Instance same_device_invariant : LinkInvariant same_device.
Proof.
  constructor; unfold same_device; intros; try reflexivity.
  etransitivity; eassumption.
Qed.

Lemma same_device_connect device : respects same_device (emit (EvClientConnect device)).
Proof. intros s; reflexivity. Qed.

#[local] Hint Resolve same_device_connect : respects.

(** ** connectToServer *)

(** The index loop stores the first advertiser of the service, if any. *)
Lemma find_target_device_from (results : list BLEAdvertisedDevice) (n i : nat) (s : State) :
  (i + n = length results)%nat ->
  exec (find_target_device results i n) s =
  match find advertises_target (skipn i results) with
  | Some device => set_myDevice (Some device) s
  | None => s
  end.
Proof.
  revert i; induction n as [ | n IH ]; intros i Hlen; cbn [find_target_device].
  - rewrite skipn_all2 by lia. reflexivity.
  - destruct (nth_error results i) as [ device | ] eqn:Hnth.
    + apply nth_error_split in Hnth as (pre & post & -> & <-).
      replace (skipn (length pre) (pre ++ device :: post)) with (device :: post)
        by (rewrite skipn_app, skipn_all, Nat.sub_diag; reflexivity).
      cbn [find]. unfold advertises_target at 1.
      destruct (isAdvertisingService device serviceUUID); [ reflexivity | ].
      rewrite IH by lia.
      replace (skipn (S (length pre)) (pre ++ device :: post)) with post; [ reflexivity | ].
      rewrite skipn_app, skipn_all2 by lia.
      replace (S (length pre) - length pre)%nat with 1%nat by lia. reflexivity.
    + apply nth_error_None in Hnth. lia.
Qed.

Lemma find_first_match {X : Type} (p : X -> bool) (pre post : list X) (x : X) :
  (forall y, In y pre -> p y = false) -> p x = true ->
  find p (pre ++ x :: post) = Some x.
Proof.
  intros Hpre Hx. induction pre as [ | y pre IH ]; cbn.
  - rewrite Hx; reflexivity.
  - rewrite (Hpre y) by (left; reflexivity). apply IH.
    intros z Hz; apply Hpre; right; exact Hz.
Qed.

Lemma find_no_match {X : Type} (p : X -> bool) (l : list X) :
  (forall y, In y l -> p y = false) -> find p l = None.
Proof.
  intros H. destruct (find p l) as [ x | ] eqn:Hf; [ | reflexivity ].
  apply find_some in Hf as [Hin Hp]. rewrite (H x Hin) in Hp. discriminate.
Qed.

Lemma trace_update_ble_status (st : ble_status_t) (s : State) :
  trace (exec (update_ble_status st) s) = EvStatus st :: trace s.
Proof.
  unfold update_ble_status. autorewrite with run. cbn.
  destruct (ble_status_label (display s)); reflexivity.
Qed.

Lemma Status_update_ble_status (st : ble_status_t) (s : State) :
  Status (exec (update_ble_status st) s) = Some st.
Proof. unfold Status. rewrite trace_update_ble_status. reflexivity. Qed.

(** *** What is notified is what the labels show

    As long as the labels of the Shot Stopper screen exist, each display
    function leaves on its label what it has been called with; without the
    label it only leaves the call in the trace. *)

Lemma update_ble_status_label (st : ble_status_t) (s : State) :
  ble_status_label (display (exec (update_ble_status st) s)) =
  match ble_status_label (display s) with
  | Some _ => Some (status_colour st)
  | None => None
  end.
Proof.
  unfold update_ble_status. autorewrite with run.
  destruct s as [? ? ? ? ? ? ? ? ? ? ? d ?]; cbn.
  destruct (ble_status_label d) eqn:E; cbn; [ reflexivity | exact E ].
Qed.

Lemma checkmark_label_hidden (shown : bool) (s : State) :
  checkmark_label
    (display (exec (if shown then show_verification_checkmark
                    else hide_verification_checkmark) s)) =
  match checkmark_label (display s) with
  | Some _ => Some (negb shown)
  | None => None
  end.
Proof.
  destruct shown; unfold show_verification_checkmark, hide_verification_checkmark;
    autorewrite with run;
    destruct s as [? ? ? ? ? ? ? ? ? ? ? d ?]; cbn;
    destruct (checkmark_label d) eqn:E; cbn; try reflexivity; exact E.
Qed.

Lemma update_display_value_label (w : Z) (s : State) :
  weight_label (display (exec (update_display_value w) s)) =
  match weight_label (display s) with
  | Some _ => Some w
  | None => None
  end.
Proof.
  unfold update_display_value. autorewrite with run.
  destruct s as [? ? ? ? ? ? ? ? ? ? ? d ?]; cbn.
  destruct (weight_label d) eqn:E; cbn; [ reflexivity | exact E ].
Qed.

(** The stored device and the result of [connectToServer] when the scan
    has started, in terms of [find]. *)
Lemma connectToServer_scan (env : ConnectEnv) (s : State) (results : list BLEAdvertisedDevice) :
  connected s = false ->
  scan_start env = Some results ->
  myDevice (exec (connectToServer env) s) = find advertises_target results /\
  (find advertises_target results = None ->
   eval (connectToServer env) s = false /\
   Status (exec (connectToServer env) s) = Some BLE_STATUS_FAILED).
Proof.
  intros Hc Hscan.
  unfold connectToServer.
  rewrite !exec_bind, !eval_bind, !eval_get, Hc, Hscan.
  rewrite !exec_bind, !eval_bind.
  rewrite (find_target_device_from results (length results) 0) by reflexivity.
  cbn [skipn].
  set (s1 := exec (update_ble_status BLE_STATUS_CONNECTING) s).
  destruct (find advertises_target results) as [ device | ] eqn:Hfind;
    autorewrite with run; cbn [myDevice set_myDevice set_trace].
  - split; [ | discriminate ].
    match goal with
    | |- myDevice (exec ?m ?st) = _ =>
        transitivity (myDevice st); [ | reflexivity ];
        generalize st; change (respects same_device m)
    end.
    respects_walk.
  - split.
    + match goal with
      | |- myDevice (exec ?m ?st) = _ =>
          transitivity (myDevice st); [ | reflexivity ];
          generalize st; change (respects same_device m)
      end.
      respects_walk.
    + intros _. split; [ reflexivity | ].
      rewrite exec_bind, exec_ret. apply Status_update_ble_status.
Qed.

(** Carries a projection of the state across a link-layer computation. *)
Ltac across R :=
  match goal with
  | |- ?f (exec ?m ?st) = _ =>
      transitivity (f st);
      [ generalize st; change (respects R m); respects_walk | ]
  end.

(** C7. Device selection during connect: when the scan has started, the
    device stored for connection is the first scan result, in result order,
    that advertises the target service, whatever the signal strengths are;
    when no result advertises it, nothing is stored, Status is Failed and
    [connectToServer] returns false. *)
Theorem connect_selects_first_advertiser
    (env : ConnectEnv) (s : State) (results : list BLEAdvertisedDevice) :
  connected s = false ->
  scan_start env = Some results ->
  (forall pre device post,
      results = pre ++ device :: post ->
      advertises_target device = true ->
      (forall d, In d pre -> advertises_target d = false) ->
      myDevice (exec (connectToServer env) s) = Some device) /\
  ((forall d, In d results -> advertises_target d = false) ->
      myDevice (exec (connectToServer env) s) = None /\
      eval (connectToServer env) s = false /\
      Status (exec (connectToServer env) s) = Some BLE_STATUS_FAILED).
Proof.
  intros Hc Hscan.
  destruct (connectToServer_scan env s results Hc Hscan) as [Hdev Hnone].
  split.
  - intros pre device post -> Hadv Hpre.
    rewrite Hdev. apply find_first_match; assumption.
  - intros Hall. pose proof (find_no_match _ _ Hall) as Hfind.
    rewrite Hdev. split; [ exact Hfind | apply Hnone, Hfind ].
Qed.

Lemma connect_selects_first_advertiser_witness :
  myDevice (exec (connectToServer env_reachable) boot_state) = Some dev_scale /\
  getRSSI dev_scale < getRSSI dev_scale_near /\
  Status (exec (connectToServer env_absent) boot_state) = Some BLE_STATUS_FAILED.
Proof.
  split; [ | split; [ reflexivity | ] ].
  - refine (proj1 (connect_selects_first_advertiser env_reachable boot_state _
                     eq_refl eq_refl) [dev_other] dev_scale [dev_scale_near]
                  eq_refl eq_refl _).
    intros d [ <- | [] ]; reflexivity.
  - refine (proj2 (proj2 (proj2 (connect_selects_first_advertiser env_absent boot_state _
                     eq_refl eq_refl) _))).
    intros d [ <- | [] ]; reflexivity.
Defined.

(** C8. [connectToServer] with the connection flag already set returns true
    and leaves the whole state as it was: no scan, no Status notification,
    and the characteristic handle, the stored device and the flag keep
    their values. *)
Theorem connect_when_connected_is_noop (env : ConnectEnv) (s : State) :
  connected s = true ->
  connectToServer env s = (true, s).
Proof.
  intros Hc. unfold connectToServer. rewrite bind_run, eval_get, exec_get, Hc.
  reflexivity.
Qed.

Lemma connect_when_connected_is_noop_witness :
  connected (set_connected true boot_state) = true /\
  connectToServer env_reachable (set_connected true boot_state)
    = (true, set_connected true boot_state).
Proof.
  split; [ reflexivity | ].
  apply (connect_when_connected_is_noop env_reachable (set_connected true boot_state)).
  reflexivity.
Defined.

(** ** disconnectFromServer *)

Lemma set_connected_same (s : State) : set_connected (connected s) s = s.
Proof. destruct s; reflexivity. Qed.

Lemma set_pRemoteCharacteristic_same (s : State) :
  set_pRemoteCharacteristic (pRemoteCharacteristic s) s = s.
Proof. destruct s; reflexivity. Qed.

Lemma disconnect_when_disconnected_run (s : State) :
  already_disconnected s = true ->
  exec disconnectFromServer s = exec (update_ble_status BLE_STATUS_DISCONNECTED) s.
Proof.
  unfold already_disconnected. intros H.
  apply andb_prop in H as [H Hclient]. apply andb_prop in H as [Hc Hchr].
  apply negb_true_iff in Hc.
  destruct (pRemoteCharacteristic s) eqn:Echr; [ discriminate | ].
  unfold disconnectFromServer.
  rewrite exec_bind, eval_get, exec_get, exec_bind.
  assert (Hreq : exec match pClient s with
                      | Some c => if isConnected c then emit EvClientDisconnect else ret tt
                      | None => ret tt
                      end s = s).
  { destruct (pClient s) as [ c | ]; [ | reflexivity ].
    apply negb_true_iff in Hclient. rewrite Hclient. reflexivity. }
  rewrite Hreq, !exec_bind, !exec_modify.
  rewrite <- Hc at 1. rewrite set_connected_same.
  rewrite <- Echr at 1. rewrite set_pRemoteCharacteristic_same.
  reflexivity.
Qed.

Lemma update_ble_status_twice (st : ble_status_t) (s : State) :
  untraced (exec (update_ble_status st) (exec (update_ble_status st) s))
  = untraced (exec (update_ble_status st) s).
Proof.
  destruct s as [? ? ? ? ? ? ? ? ? ? ? [[c | ] wl cl] ?]; reflexivity.
Qed.

(** C5 (as the code has it). [disconnectFromServer] called when already
    disconnected requests no transport disconnect and changes nothing but
    the display: it is exactly one Status notification, Disconnected, so
    Status is Disconnected afterwards whatever the caller had set; and the
    state is again already disconnected, so that a second call only repeats
    the notification and leaves variables and labels as the first call
    left them. *)
Theorem disconnect_when_disconnected (s : State) :
  already_disconnected s = true ->
  trace (exec disconnectFromServer s) = EvStatus BLE_STATUS_DISCONNECTED :: trace s /\
  Status (exec disconnectFromServer s) = Some BLE_STATUS_DISCONNECTED /\
  core (exec disconnectFromServer s) = core s /\
  already_disconnected (exec disconnectFromServer s) = true /\
  untraced (exec disconnectFromServer (exec disconnectFromServer s))
    = untraced (exec disconnectFromServer s).
Proof.
  intros H. rewrite (disconnect_when_disconnected_run s H).
  assert (Hcore : core (exec (update_ble_status BLE_STATUS_DISCONNECTED) s) = core s).
  { unfold update_ble_status. autorewrite with run.
    destruct s as [? ? ? ? ? ? ? ? ? ? ? d ?]; cbn.
    destruct (ble_status_label d); reflexivity. }
  assert (Hagain : already_disconnected (exec (update_ble_status BLE_STATUS_DISCONNECTED) s) = true).
  { rewrite <- H. unfold update_ble_status. autorewrite with run.
    destruct s as [? ? ? ? ? ? ? ? ? ? ? d ?]; cbn.
    destruct (ble_status_label d); reflexivity. }
  split; [ apply trace_update_ble_status | ].
  split; [ apply Status_update_ble_status | ].
  split; [ exact Hcore | ].
  split; [ exact Hagain | ].
  rewrite (disconnect_when_disconnected_run _ Hagain).
  apply update_ble_status_twice.
Qed.

Lemma disconnect_when_disconnected_witness :
  already_disconnected state_after_failed_scan = true /\
  core (exec disconnectFromServer state_after_failed_scan) = core state_after_failed_scan.
Proof.
  split; [ reflexivity | ].
  apply (disconnect_when_disconnected state_after_failed_scan). reflexivity.
Defined.

(** C5 as stated fails: after a connect attempt that found no advertiser the
    link is down and Status is Failed; the call then notifies Disconnected,
    a Status transition emitted by the call itself. *)
Lemma disconnect_overwrites_failed_status :
  already_disconnected state_after_failed_scan = true /\
  Status state_after_failed_scan = Some BLE_STATUS_FAILED /\
  Status (exec disconnectFromServer state_after_failed_scan) = Some BLE_STATUS_DISCONNECTED /\
  Status (exec disconnectFromServer state_after_failed_scan) <> Status state_after_failed_scan.
Proof. repeat split; discriminate. Qed.

(** ** write_verify_task *)

(** *** [ui_frame]: Target Value and the verified indicator *)

#[export] Instance ui_frame_invariant : LinkInvariant ui_frame.
Proof.
  constructor; unfold ui_frame.
  - intros s; split; reflexivity.
  - intros s1 s2 s3 [] []; split; etransitivity; eassumption.
  - intros e s He; split; [ reflexivity | ].
    unfold verified; cbn; destruct e; try reflexivity; discriminate.
  - intros d s; split; reflexivity.
  - intros v s; split; reflexivity.
  - intros v s; split; reflexivity.
  - intros v s; split; reflexivity.
Qed.

Lemma ui_frame_set_myDevice v : respects ui_frame (modify (set_myDevice v)).
Proof. intros s; split; reflexivity. Qed.

Lemma ui_frame_set_bleMutex v : respects ui_frame (modify (set_bleMutex v)).
Proof. intros s; split; reflexivity. Qed.

Lemma ui_frame_set_writeTaskHandle v : respects ui_frame (modify (set_writeTaskHandle v)).
Proof. intros s; split; reflexivity. Qed.

Lemma ui_frame_set_initialReadTaskHandle v :
  respects ui_frame (modify (set_initialReadTaskHandle v)).
Proof. intros s; split; reflexivity. Qed.

Lemma ui_frame_vTaskDelete fn : respects ui_frame (vTaskDelete fn).
Proof. intros s; split; reflexivity. Qed.

Lemma ui_frame_link (s s' : State) : link_frame s s' -> ui_frame s s'.
Proof. intros []; split; assumption. Qed.

Lemma ui_frame_connectToServer env : respects ui_frame (connectToServer env).
Proof. intros s. apply ui_frame_link, link_frame_connectToServer. Qed.

#[local] Hint Resolve ui_frame_set_myDevice ui_frame_set_bleMutex
  ui_frame_set_writeTaskHandle ui_frame_set_initialReadTaskHandle
  ui_frame_vTaskDelete ui_frame_connectToServer : respects.

Lemma ui_frame_xSemaphoreTake who granted :
  respects ui_frame (xSemaphoreTake who granted).
Proof. unfold xSemaphoreTake. respects_walk. Qed.

Lemma ui_frame_xSemaphoreGive : respects ui_frame xSemaphoreGive.
Proof. unfold xSemaphoreGive. respects_walk. Qed.

#[local] Hint Resolve ui_frame_xSemaphoreTake ui_frame_xSemaphoreGive : respects.

Lemma eval_xSemaphoreTake who granted s :
  eval (xSemaphoreTake who granted) s = granted.
Proof. unfold xSemaphoreTake. autorewrite with run. reflexivity. Qed.

Create Rewrite HintDb mrun.
#[local] Hint Rewrite @exec_bind @eval_bind @exec_ret @eval_ret @exec_get
  @eval_get eval_xSemaphoreTake : mrun.

Lemma ui_frame_target {A : Type} (m : M A) (s : State) :
  respects ui_frame m -> target_weight (exec m s) = target_weight s.
Proof. intros H. apply (H s). Qed.

Lemma ui_frame_verified {A : Type} (m : M A) (s : State) :
  respects ui_frame m -> verified (exec m s) = verified s.
Proof. intros H. apply (H s). Qed.

(** Removes the link-layer and housekeeping steps around an occurrence of
    [target_weight] or [verified]. *)
Ltac peel :=
  repeat first
    [ rewrite ui_frame_target by auto with respects typeclass_instances
    | rewrite ui_frame_verified by auto with respects typeclass_instances ].

Lemma run_show_verification_checkmark (s : State) :
  target_weight (exec show_verification_checkmark s) = target_weight s /\
  verified (exec show_verification_checkmark s) = Some true.
Proof.
  unfold show_verification_checkmark. autorewrite with run. cbn.
  destruct (checkmark_label (display s)); split; reflexivity.
Qed.

Lemma run_hide_verification_checkmark (s : State) :
  target_weight (exec hide_verification_checkmark s) = target_weight s /\
  verified (exec hide_verification_checkmark s) = Some false /\
  Status (exec hide_verification_checkmark s) = Status s.
Proof.
  unfold hide_verification_checkmark. autorewrite with run. cbn.
  destruct (checkmark_label (display s)); repeat split; reflexivity.
Qed.

Lemma run_update_display_value (w : Z) (s : State) :
  target_weight (exec (update_display_value w) s) = target_weight s /\
  verified (exec (update_display_value w) s) = verified s /\
  displayed (exec (update_display_value w) s) = Some w.
Proof.
  unfold update_display_value. autorewrite with run. cbn.
  destruct (weight_label (display s)); repeat split; reflexivity.
Qed.

Lemma link_status_deliver_all (cbs : list Callback) (s : State) :
  link_status s -> link_status (exec (deliver_all cbs) s).
Proof.
  revert s; induction cbs as [ | cb rest IH ]; intros s Hs; [ exact Hs | ].
  cbn [deliver_all]. rewrite exec_bind. apply IH.
  destruct cb; unfold deliver, onConnect, onDisconnect; autorewrite with mrun;
    [ right | left ]; apply Status_update_ble_status.
Qed.

Lemma link_status_after_disconnect (cbs : list Callback) (s : State) :
  link_status (exec (vTaskDelay 500 cbs) (exec disconnectFromServer s)).
Proof.
  unfold vTaskDelay. rewrite exec_bind. apply link_status_deliver_all.
  left. unfold disconnectFromServer. autorewrite with mrun.
  rewrite exec_emit. unfold Status. cbn [trace set_trace last_status].
  apply Status_update_ble_status.
Qed.

(** Symbolic execution of [write_verify_task] along one path. *)
Ltac wv_unfold :=
  unfold wv_connected, wv_wrote, wv_read_value, wv_at_read, wv_at_write, wv_at_connect.

Lemma Status_vTaskDelete fn s : Status (exec (vTaskDelete fn) s) = Status s.
Proof. reflexivity. Qed.

Lemma Status_set_writeTaskHandle v s :
  Status (exec (modify (set_writeTaskHandle v)) s) = Status s.
Proof. reflexivity. Qed.

Lemma Status_set_initialReadTaskHandle v s :
  Status (exec (modify (set_initialReadTaskHandle v)) s) = Status s.
Proof. reflexivity. Qed.

Lemma Status_xSemaphoreGive s : Status (exec xSemaphoreGive s) = Status s.
Proof. reflexivity. Qed.

Ltac status_after_exit :=
  rewrite ?Status_vTaskDelete, ?Status_set_writeTaskHandle,
    ?Status_set_initialReadTaskHandle, ?Status_xSemaphoreGive.

(** The task commits when the write succeeded and the value that
    [internal_read_weight] returned is the value written. *)
Lemma write_verify_commit (env : WriteVerifyEnv) (s : State) :
  wv_connected env s = true ->
  wv_wrote env s = true ->
  wv_read_value env s = weight_buffer s ->
  eval (write_verify_task env) s = true /\
  target_weight (exec (write_verify_task env) s) = weight_buffer s /\
  verified (exec (write_verify_task env) s) = Some true /\
  Status (exec (write_verify_task env) s) = Some BLE_STATUS_DISCONNECTED.
Proof.
  wv_unfold. intros Hc Hw Hr. apply andb_prop in Hc as [Htake Hok].
  unfold write_verify_task.
  autorewrite with mrun. rewrite Htake in *.
  autorewrite with mrun. rewrite Hok.
  autorewrite with mrun. rewrite Hw.
  autorewrite with mrun. rewrite Hr, Z.eqb_refl.
  autorewrite with mrun.
  repeat split.
  - peel. rewrite (proj1 (run_show_verification_checkmark _)).
    rewrite (proj1 (run_update_display_value _ _)). reflexivity.
  - peel. apply run_show_verification_checkmark.
  - status_after_exit. apply Status_update_ble_status.
Qed.

(** After a connect that succeeded, any other outcome of the write and of
    the read-back leaves Target Value alone and hides the checkmark; the
    last Status notification is then the one of the disconnect or of a
    callback, never Failed. *)
Lemma write_verify_no_commit (env : WriteVerifyEnv) (s : State) :
  wv_connected env s = true ->
  ~ (wv_wrote env s = true /\ wv_read_value env s = weight_buffer s) ->
  eval (write_verify_task env) s = false /\
  target_weight (exec (write_verify_task env) s) = target_weight s /\
  verified (exec (write_verify_task env) s) = Some false /\
  link_status (exec (write_verify_task env) s).
Proof.
  wv_unfold. intros Hc Hno. apply andb_prop in Hc as [Htake Hok].
  unfold write_verify_task.
  autorewrite with mrun. rewrite Htake in *.
  autorewrite with mrun. rewrite Hok.
  autorewrite with mrun.
  match type of Hno with
  | ~ (?w = true /\ _) => destruct w eqn:Hw
  end.
  - autorewrite with mrun.
    match type of Hno with
    | ~ (_ /\ ?r = ?v) => destruct (Z.eqb_spec r v) as [ Heq | Hne ]
    end; [ exfalso; apply Hno; split; [ reflexivity | exact Heq ] | ].
    autorewrite with mrun.
    repeat split.
    + peel. rewrite (proj1 (run_hide_verification_checkmark _)). peel. reflexivity.
    + peel. apply run_hide_verification_checkmark.
    + unfold link_status. status_after_exit.
      apply link_status_after_disconnect.
  - autorewrite with mrun.
    repeat split.
    + peel. rewrite (proj1 (run_hide_verification_checkmark _)). peel. reflexivity.
    + peel. apply run_hide_verification_checkmark.
    + unfold link_status. status_after_exit.
      apply link_status_after_disconnect.
Qed.

(** When the mutex is not obtained, or [connectToServer] returns false,
    nothing is written. *)
Lemma write_verify_not_connected (env : WriteVerifyEnv) (s : State) :
  wv_connected env s = false ->
  eval (write_verify_task env) s = false /\
  target_weight (exec (write_verify_task env) s) = target_weight s /\
  verified (exec (write_verify_task env) s) = Some false.
Proof.
  wv_unfold. intros Hc. unfold write_verify_task.
  autorewrite with mrun.
  destruct (wv_take env) eqn:Htake.
  - cbn [andb] in Hc. autorewrite with mrun. rewrite Hc. autorewrite with mrun.
    repeat split.
    + peel. rewrite (proj1 (run_hide_verification_checkmark _)). peel. reflexivity.
    + peel. apply run_hide_verification_checkmark.
  - autorewrite with mrun.
    repeat split.
    + peel. rewrite (proj1 (run_hide_verification_checkmark _)). peel. reflexivity.
    + peel. apply run_hide_verification_checkmark.
Qed.

(** *** The round trip, on the values the primitives return *)

Lemma write_verify_round_trip (env : WriteVerifyEnv) (s : State) :
  wv_connected env s = true ->
  (wv_wrote env s = true /\ wv_read_value env s = weight_buffer s ->
   target_weight (exec (write_verify_task env) s) = weight_buffer s /\
   verified (exec (write_verify_task env) s) = Some true) /\
  (~ (wv_wrote env s = true /\ wv_read_value env s = weight_buffer s) ->
   target_weight (exec (write_verify_task env) s) = target_weight s /\
   verified (exec (write_verify_task env) s) = Some false).
Proof.
  intros Hc. split.
  - intros [Hw Hr].
    destruct (write_verify_commit env s Hc Hw Hr) as (_ & Ht & Hv & _).
    split; assumption.
  - intros Hno.
    destruct (write_verify_no_commit env s Hc Hno) as (_ & Ht & Hv & _).
    split; assumption.
Qed.

Lemma internal_read_weight_outcome (read_value : CallResult (list byte)) (s : State) :
  eval (internal_read_weight read_value) s =
  match read_outcome read_value s with
  | ReadByte b => Int8.of_byte b
  | _ => -1
  end.
Proof.
  unfold internal_read_weight, read_outcome. autorewrite with mrun.
  destruct (connected s); [ | reflexivity ].
  destruct (pRemoteCharacteristic s) as [ ch | ]; [ | reflexivity ].
  destruct (canRead ch); [ | reflexivity ].
  destruct read_value as [ | [ | b value ] ]; reflexivity.
Qed.

Lemma internal_read_weight_failed (read_value : CallResult (list byte)) (s : State) :
  read_failed (read_outcome read_value s) = true ->
  eval (internal_read_weight read_value) s = -1.
Proof.
  intros H. rewrite internal_read_weight_outcome.
  destruct (read_outcome read_value s); [ discriminate | reflexivity .. ].
Qed.

(** The round trip on what the peripheral answered, for every written
    value other than the error value of the read primitive. *)
Lemma write_verify_round_trip_payload (env : WriteVerifyEnv) (s : State) :
  wv_connected env s = true ->
  weight_buffer s <> -1 ->
  let answered b :=
    wv_wrote env s = true /\
    read_outcome (wv_read env) (wv_at_read env s) = ReadByte b /\
    Int8.of_byte b = weight_buffer s in
  (forall b, answered b ->
   target_weight (exec (write_verify_task env) s) = weight_buffer s /\
   verified (exec (write_verify_task env) s) = Some true) /\
  ((forall b, ~ answered b) ->
   target_weight (exec (write_verify_task env) s) = target_weight s /\
   verified (exec (write_verify_task env) s) = Some false).
Proof.
  intros Hc Hv answered.
  destruct (write_verify_round_trip env s Hc) as [Hyes Hno].
  assert (Hval : wv_read_value env s =
                 match read_outcome (wv_read env) (wv_at_read env s) with
                 | ReadByte b => Int8.of_byte b
                 | _ => -1
                 end)
    by apply internal_read_weight_outcome.
  split.
  - intros b (Hw & Ho & Hb). apply Hyes. split; [ exact Hw | ].
    rewrite Hval, Ho. exact Hb.
  - intros Hnone. apply Hno. intros [Hw Hr].
    rewrite Hval in Hr.
    destruct (read_outcome (wv_read env) (wv_at_read env s)) as [ b | | | ] eqn:Ho;
      try (apply Hv; symmetry; exact Hr).
    apply (Hnone b). repeat split; assumption.
Qed.

(** C1 (the code departs from it). Weight -1 is written after the knob was
    turned down past 0; the write is acknowledged and the read-back throws.
    [internal_read_weight] reports the error as -1, which equals the value
    written: the task takes the failed read for a match, stores -1 as
    Target Value and shows the checkmark. *)
Theorem write_verify_commits_on_failed_read_of_minus_1 :
  weight_buffer state_write_minus_1 = -1 /\
  wv_connected env_read_throws state_write_minus_1 = true /\
  wv_wrote env_read_throws state_write_minus_1 = true /\
  read_outcome (wv_read env_read_throws) (wv_at_read env_read_throws state_write_minus_1)
    = ReadException /\
  verified state_write_minus_1 = Some false /\
  eval (write_verify_task env_read_throws) state_write_minus_1 = true /\
  target_weight (exec (write_verify_task env_read_throws) state_write_minus_1) = -1 /\
  verified (exec (write_verify_task env_read_throws) state_write_minus_1) = Some true.
Proof. vm_compute. repeat split. Qed.

(** The same run when a preset tap has meanwhile put 36 into Target Value:
    the failed read-back overwrites it with -1. *)
Lemma write_verify_failed_read_overwrites_target :
  let s := set_target_weight 36 state_write_minus_1 in
  read_outcome (wv_read env_read_throws) (wv_at_read env_read_throws s) = ReadException /\
  target_weight (exec (write_verify_task env_read_throws) s) = -1.
Proof. vm_compute. repeat split. Qed.

(** C2 (the code departs from it). Weight 50 is written, the write is
    acknowledged and the read-back returns 48.  The task notifies Failed
    and then calls [disconnectFromServer], which notifies Disconnected:
    when the task ends, Status is Disconnected, not Failed. *)
Theorem write_verify_mismatch_ends_disconnected :
  weight_buffer state_write_50 = 50 /\
  wv_connected env_reads_48 state_write_50 = true /\
  wv_wrote env_reads_48 state_write_50 = true /\
  wv_read_value env_reads_48 state_write_50 = 48 /\
  eval (write_verify_task env_reads_48) state_write_50 = false /\
  verified (exec (write_verify_task env_reads_48) state_write_50) = Some false /\
  bleMutex (exec (write_verify_task env_reads_48) state_write_50) = None /\
  Status (exec (write_verify_task env_reads_48) state_write_50)
    = Some BLE_STATUS_DISCONNECTED.
Proof. vm_compute. repeat split. Qed.

(** The same holds on every run that connected and did not succeed: the
    last Status notification is never Failed. *)
Lemma write_verify_failure_never_ends_failed (env : WriteVerifyEnv) (s : State) :
  wv_connected env s = true ->
  eval (write_verify_task env) s = false ->
  Status (exec (write_verify_task env) s) <> Some BLE_STATUS_FAILED.
Proof.
  intros Hc Hfail.
  assert (Hno : ~ (wv_wrote env s = true /\ wv_read_value env s = weight_buffer s)).
  { intros [Hw Hr].
    destruct (write_verify_commit env s Hc Hw Hr) as [Hyes _]. congruence. }
  destruct (write_verify_no_commit env s Hc Hno) as (_ & _ & _ & [ H | H ]);
    rewrite H; discriminate.
Qed.

(** ** initial_read_task *)

(** *** [scan_frame]: how many scans and connections were started *)

#[export] Instance scan_frame_invariant : LinkInvariant scan_frame.
Proof.
  constructor; unfold scan_frame.
  - intros s; split; reflexivity.
  - intros s1 s2 s3 [] []; split; etransitivity; eassumption.
  - intros e s He; unfold scans, connects; destruct e; try discriminate;
      split; reflexivity.
  - intros d s; split; reflexivity.
  - intros v s; split; reflexivity.
  - intros v s; split; reflexivity.
  - intros v s; split; reflexivity.
Qed.

Lemma scan_frame_set_myDevice v : respects scan_frame (modify (set_myDevice v)).
Proof. intros s; split; reflexivity. Qed.

Lemma scan_frame_set_bleMutex v : respects scan_frame (modify (set_bleMutex v)).
Proof. intros s; split; reflexivity. Qed.

Lemma scan_frame_set_target_weight v : respects scan_frame (modify (set_target_weight v)).
Proof. intros s; split; reflexivity. Qed.

Lemma scan_frame_update_display_value w : respects scan_frame (update_display_value w).
Proof.
  intros s. unfold update_display_value. autorewrite with run.
  destruct s as [? ? ? ? ? ? ? ? ? ? ? d ?]; cbn.
  destruct (weight_label d); split; reflexivity.
Qed.

Lemma scan_frame_show_verification_checkmark :
  respects scan_frame show_verification_checkmark.
Proof.
  intros s. unfold show_verification_checkmark. autorewrite with run.
  destruct s as [? ? ? ? ? ? ? ? ? ? ? d ?]; cbn.
  destruct (checkmark_label d); split; reflexivity.
Qed.

#[local] Hint Resolve scan_frame_set_myDevice scan_frame_set_bleMutex
  scan_frame_set_target_weight scan_frame_update_display_value
  scan_frame_show_verification_checkmark : respects.

Lemma scan_frame_find_target_device results i n :
  respects scan_frame (find_target_device results i n).
Proof.
  revert i; induction n as [ | n IH ]; intros i; cbn [find_target_device].
  - respects_walk.
  - destruct (nth_error results i); [ | respects_walk ].
    destruct (isAdvertisingService _ _); [ respects_walk | apply IH ].
Qed.

Lemma scan_frame_xSemaphoreTake who granted :
  respects scan_frame (xSemaphoreTake who granted).
Proof. unfold xSemaphoreTake. respects_walk. Qed.

Lemma scan_frame_xSemaphoreGive : respects scan_frame xSemaphoreGive.
Proof. unfold xSemaphoreGive. respects_walk. Qed.

#[local] Hint Resolve scan_frame_find_target_device scan_frame_xSemaphoreTake
  scan_frame_xSemaphoreGive : respects.

Lemma scan_frame_scans {A : Type} (m : M A) (s : State) :
  respects scan_frame m -> scans (exec m s) = scans s.
Proof. intros H. apply (H s). Qed.

Lemma scan_frame_connects {A : Type} (m : M A) (s : State) :
  respects scan_frame m -> connects (exec m s) = connects s.
Proof. intros H. apply (H s). Qed.

Ltac peel_scans :=
  repeat first
    [ rewrite scan_frame_scans by respects_walk
    | rewrite scan_frame_connects by respects_walk ].

Lemma count_emit_scan (s : State) :
  scans (exec (emit EvScanStart) s) = S (scans s) /\
  connects (exec (emit EvScanStart) s) = connects s.
Proof. split; reflexivity. Qed.

Lemma count_emit_connect (device : BLEAdvertisedDevice) (s : State) :
  scans (exec (emit (EvClientConnect device)) s) = scans s /\
  connects (exec (emit (EvClientConnect device)) s) = S (connects s).
Proof. split; reflexivity. Qed.

(** One call of [connectToServer] starts at most one scan and at most one
    connection. *)
Lemma connectToServer_starts_at_most_one (env : ConnectEnv) (s : State) :
  (scans (exec (connectToServer env) s) <= scans s + 1)%nat /\
  (connects (exec (connectToServer env) s) <= connects s + 1)%nat.
Proof.
  unfold connectToServer. autorewrite with mrun.
  destruct (connected s); [ autorewrite with mrun; lia | ].
  autorewrite with mrun.
  destruct (scan_start env) as [ results | ].
  - autorewrite with mrun.
    match goal with
    | |- context [ match myDevice ?st with _ => _ end ] => destruct (myDevice st)
    end.
    + autorewrite with mrun. peel_scans.
      rewrite (proj1 (count_emit_connect _ _)), (proj2 (count_emit_connect _ _)).
      peel_scans.
      rewrite (proj1 (count_emit_scan _)), (proj2 (count_emit_scan _)).
      peel_scans. lia.
    + peel_scans.
      rewrite (proj1 (count_emit_scan _)), (proj2 (count_emit_scan _)).
      peel_scans. lia.
  - peel_scans.
    rewrite (proj1 (count_emit_scan _)), (proj2 (count_emit_scan _)).
    peel_scans. lia.
Qed.

Ltac ir_unfold :=
  unfold attempt_succeeds, ir_connected, ir_read_value, ir_at_read, ir_at_connect.

Lemma bleMutex_xSemaphoreGive s : bleMutex (exec xSemaphoreGive s) = None.
Proof. reflexivity. Qed.

Lemma target_weight_xSemaphoreGive s :
  target_weight (exec xSemaphoreGive s) = target_weight s.
Proof. reflexivity. Qed.

Lemma verified_xSemaphoreGive s : verified (exec xSemaphoreGive s) = verified s.
Proof. reflexivity. Qed.

Lemma target_weight_update_ble_status st s :
  target_weight (exec (update_ble_status st) s) = target_weight s.
Proof. apply ui_frame_target. auto with respects typeclass_instances. Qed.

Lemma verified_update_ble_status st s :
  verified (exec (update_ble_status st) s) = verified s.
Proof. apply ui_frame_verified. auto with respects typeclass_instances. Qed.

(** The pass ends in [break] exactly when it connected and read something
    other than -1. *)
Lemma initial_read_attempt_breaks (a : AttemptEnv) (s : State) :
  eval (initial_read_attempt a) s = attempt_succeeds a s.
Proof.
  ir_unfold. unfold initial_read_attempt. autorewrite with mrun.
  destruct (ir_take a); [ | reflexivity ].
  autorewrite with mrun. cbn [andb].
  destruct (eval (connectToServer (ir_connect a)) _); [ | reflexivity ].
  autorewrite with mrun. cbn [andb].
  destruct (negb _); reflexivity.
Qed.

Lemma initial_read_attempt_success (a : AttemptEnv) (s : State) :
  ir_connected a s = true ->
  ir_read_value a s <> -1 ->
  target_weight (exec (initial_read_attempt a) s) = ir_read_value a s /\
  verified (exec (initial_read_attempt a) s) = Some true /\
  Status (exec (initial_read_attempt a) s) = Some BLE_STATUS_DISCONNECTED /\
  bleMutex (exec (initial_read_attempt a) s) = None.
Proof.
  ir_unfold. intros Hc Hv. apply andb_prop in Hc as [Htake Hok].
  apply Z.eqb_neq in Hv.
  unfold initial_read_attempt.
  autorewrite with mrun. rewrite Htake in *.
  autorewrite with mrun. rewrite Hok.
  autorewrite with mrun. rewrite Hv. cbn [negb].
  autorewrite with mrun.
  repeat split.
  - rewrite target_weight_xSemaphoreGive, target_weight_update_ble_status.
    rewrite (proj1 (run_show_verification_checkmark _)).
    rewrite (proj1 (run_update_display_value _ _)). reflexivity.
  - rewrite verified_xSemaphoreGive, verified_update_ble_status.
    apply run_show_verification_checkmark.
  - rewrite Status_xSemaphoreGive. apply Status_update_ble_status.
Qed.

(** A pass that connected and got -1 from the read primitive reports Failed
    and leaves Target Value alone. *)
Lemma initial_read_attempt_failed_read (a : AttemptEnv) (s : State) :
  ir_connected a s = true ->
  ir_read_value a s = -1 ->
  eval (initial_read_attempt a) s = false /\
  target_weight (exec (initial_read_attempt a) s) = target_weight s /\
  Status (exec (initial_read_attempt a) s) = Some BLE_STATUS_FAILED /\
  bleMutex (exec (initial_read_attempt a) s) = None.
Proof.
  intros Hc Hv. split.
  { rewrite initial_read_attempt_breaks. unfold attempt_succeeds.
    rewrite Hc, Hv. reflexivity. }
  revert Hc Hv. ir_unfold. intros Hc Hv. apply andb_prop in Hc as [Htake Hok].
  unfold initial_read_attempt.
  autorewrite with mrun. rewrite Htake in *.
  autorewrite with mrun. rewrite Hok.
  autorewrite with mrun. rewrite Hv. cbn [negb Z.eqb Pos.eqb].
  autorewrite with mrun.
  repeat split.
  - rewrite target_weight_xSemaphoreGive, target_weight_update_ble_status.
    peel. reflexivity.
  - rewrite Status_xSemaphoreGive. apply Status_update_ble_status.
Qed.

Lemma initial_read_attempt_starts_at_most_one (a : AttemptEnv) (s : State) :
  (scans (exec (initial_read_attempt a) s) <= scans s + 1)%nat /\
  (connects (exec (initial_read_attempt a) s) <= connects s + 1)%nat.
Proof.
  pose proof (connectToServer_starts_at_most_one (ir_connect a) (ir_at_connect a s)) as Hc.
  assert (Htake : scans (ir_at_connect a s) = scans s /\
                  connects (ir_at_connect a s) = connects s)
    by (unfold ir_at_connect; peel_scans; split; reflexivity).
  unfold ir_at_connect in *.
  unfold initial_read_attempt. autorewrite with mrun.
  destruct (ir_take a).
  - autorewrite with mrun.
    destruct (eval (connectToServer (ir_connect a)) _).
    + autorewrite with mrun.
      destruct (negb _); autorewrite with mrun; peel_scans; lia.
    + autorewrite with mrun. peel_scans. lia.
  - autorewrite with mrun. peel_scans. lia.
Qed.

Lemma initial_read_loop_cons (a : AttemptEnv) (rest : list AttemptEnv) (s : State) :
  initial_read_loop (a :: rest) s =
  if attempt_succeeds a s
  then Exited (exec (initial_read_attempt a) s) rest
  else initial_read_loop rest (after_failed_attempt a s).
Proof.
  cbn [initial_read_loop]. rewrite (run_pair (initial_read_attempt a) s).
  rewrite initial_read_attempt_breaks. reflexivity.
Qed.

Lemma initial_read_loop_app (pre rest : list AttemptEnv) (s : State) :
  all_fail pre s = true ->
  initial_read_loop (pre ++ rest) s = initial_read_loop rest (after_failed_attempts pre s).
Proof.
  revert s; induction pre as [ | a pre IH ]; intros s Hfail; [ reflexivity | ].
  cbn [all_fail] in Hfail. apply andb_prop in Hfail as [Ha Hrest].
  apply negb_true_iff in Ha.
  cbn [app after_failed_attempts]. rewrite initial_read_loop_cons, Ha.
  apply IH, Hrest.
Qed.

Lemma after_failed_attempts_starts (pre : list AttemptEnv) (s : State) :
  (scans (after_failed_attempts pre s) <= scans s + length pre)%nat /\
  (connects (after_failed_attempts pre s) <= connects s + length pre)%nat.
Proof.
  revert s; induction pre as [ | a pre IH ]; intros s; cbn [after_failed_attempts length].
  - lia.
  - pose proof (IH (after_failed_attempt a s)) as Hrest.
    pose proof (initial_read_attempt_starts_at_most_one a s) as Ha.
    assert (Hd : scans (after_failed_attempt a s) = scans (exec (initial_read_attempt a) s) /\
                 connects (after_failed_attempt a s) = connects (exec (initial_read_attempt a) s))
      by (unfold after_failed_attempt; peel_scans; split; reflexivity).
    lia.
Qed.

(** C4. The retry loop ends on its first successful pass.  Let the passes
    in [pre] all fail and let the next pass connect and read a value other
    than -1.  Then the task leaves the loop in that pass and ends: Target
    Value is the value read, the checkmark is shown, Status is
    Disconnected, the mutex is free and the task handle is cleared.  The
    answers prepared for later passes stay unused and have no influence on
    the final state, and no more than one scan and one connection per pass
    made have been started. *)
Theorem initial_read_exits_on_first_success
    (boot_callbacks : list Callback) (pre : list AttemptEnv) (a : AttemptEnv)
    (post : list AttemptEnv) (s : State) :
  let s0 := exec (vTaskDelay 1000 boot_callbacks) s in
  let sN := after_failed_attempts pre s0 in
  let s' := exec initial_read_epilogue (exec (initial_read_attempt a) sN) in
  all_fail pre s0 = true ->
  ir_connected a sN = true ->
  ir_read_value a sN <> -1 ->
  initial_read_task boot_callbacks (pre ++ a :: post) s = Exited s' post /\
  target_weight s' = ir_read_value a sN /\
  verified s' = Some true /\
  Status s' = Some BLE_STATUS_DISCONNECTED /\
  bleMutex s' = None /\
  initialReadTaskHandle s' = None /\
  (scans s' <= scans s + length pre + 1)%nat /\
  (connects s' <= connects s + length pre + 1)%nat.
Proof.
  intros s0 sN s' Hpre Hc Hv.
  destruct (initial_read_attempt_success a sN Hc Hv) as (Ht & Hck & Hst & Hmx).
  split.
  { unfold initial_read_task. fold s0.
    rewrite (initial_read_loop_app pre (a :: post) s0 Hpre). fold sN.
    rewrite initial_read_loop_cons. unfold attempt_succeeds. rewrite Hc.
    apply Z.eqb_neq in Hv. rewrite Hv. reflexivity. }
  pose proof (after_failed_attempts_starts pre s0) as Hstarts. fold sN in Hstarts.
  pose proof (initial_read_attempt_starts_at_most_one a sN) as Hlast.
  assert (H0 : scans s0 = scans s /\ connects s0 = connects s)
    by (unfold s0; peel_scans; split; reflexivity).
  subst s'. unfold initial_read_epilogue. autorewrite with mrun.
  set (sB := exec (initial_read_attempt a) sN) in *.
  repeat split; try assumption; try reflexivity.
  - change (scans sB <= scans s + length pre + 1)%nat. lia.
  - change (connects sB <= connects s + length pre + 1)%nat. lia.
Qed.

Lemma initial_read_exits_on_first_success_witness :
  exists s',
    initial_read_task [] ([attempt_absent; attempt_reads_ff] ++ env_boot_read_40 :: [attempt_absent])
      state_spawned = Exited s' [attempt_absent] /\
    target_weight s' = 40 /\
    (scans s' <= 3)%nat.
Proof.
  destruct (initial_read_exits_on_first_success [] [attempt_absent; attempt_reads_ff]
              env_boot_read_40 [attempt_absent] state_spawned
              ltac:(vm_compute; reflexivity) ltac:(vm_compute; reflexivity)
              ltac:(vm_compute; discriminate))
    as (Hrun & Htarget & _ & _ & _ & _ & Hscans & _).
  eexists. split; [ exact Hrun | ]. split.
  - rewrite Htarget. vm_compute. reflexivity.
  - exact Hscans.
Defined.

(** ** The error value of the read primitive *)

(** C9. The read primitive reports its errors as -1, and -1 is also what
    the payload byte 0xFF reads as.  So a write of -1 whose read-back fails
    (it throws, it returns no data, or the link is not in a state to read)
    ends as a verified success: the task returns success, Target Value is
    -1 and the checkmark is shown.  And an initial read that receives the
    byte 0xFF is handled as a failed read: Target Value stays, Status is
    Failed, and the loop goes on to its next pass. *)
Theorem read_error_value_is_a_payload :
  Int8.of_byte xff = -1 /\
  (forall env s,
      weight_buffer s = -1 ->
      wv_connected env s = true ->
      wv_wrote env s = true ->
      read_failed (read_outcome (wv_read env) (wv_at_read env s)) = true ->
      eval (write_verify_task env) s = true /\
      target_weight (exec (write_verify_task env) s) = -1 /\
      verified (exec (write_verify_task env) s) = Some true) /\
  (forall a rest s,
      ir_connected a s = true ->
      read_outcome (ir_read a) (ir_at_read a s) = ReadByte xff ->
      eval (initial_read_attempt a) s = false /\
      target_weight (exec (initial_read_attempt a) s) = target_weight s /\
      Status (exec (initial_read_attempt a) s) = Some BLE_STATUS_FAILED /\
      initial_read_loop (a :: rest) s = initial_read_loop rest (after_failed_attempt a s)).
Proof.
  split; [ reflexivity | split ].
  - intros env s Hbuf Hc Hw Hfail.
    assert (Hr : wv_read_value env s = weight_buffer s).
    { rewrite Hbuf. apply internal_read_weight_failed, Hfail. }
    destruct (write_verify_commit env s Hc Hw Hr) as (Hret & Ht & Hv & _).
    rewrite Hbuf in Ht. repeat split; assumption.
  - intros a rest s Hc Ho.
    assert (Hr : ir_read_value a s = -1).
    { unfold ir_read_value. rewrite internal_read_weight_outcome, Ho. reflexivity. }
    destruct (initial_read_attempt_failed_read a s Hc Hr) as (Hret & Ht & Hst & _).
    repeat split; try assumption.
    rewrite initial_read_loop_cons. rewrite <- initial_read_attempt_breaks, Hret.
    reflexivity.
Qed.

Lemma read_error_value_is_a_payload_witness :
  (read_outcome (wv_read env_read_throws) (wv_at_read env_read_throws state_write_minus_1)
     = ReadException /\
   verified (exec (write_verify_task env_read_throws) state_write_minus_1) = Some true) /\
  (read_outcome (wv_read env_read_empty) (wv_at_read env_read_empty state_write_minus_1)
     = ReadNoData /\
   verified (exec (write_verify_task env_read_empty) state_write_minus_1) = Some true) /\
  (read_outcome (wv_read env_link_drops) (wv_at_read env_link_drops state_write_minus_1)
     = ReadNotPossible /\
   verified (exec (write_verify_task env_link_drops) state_write_minus_1) = Some true) /\
  Status (exec (initial_read_attempt attempt_reads_ff) state_spawned)
    = Some BLE_STATUS_FAILED.
Proof.
  pose proof read_error_value_is_a_payload as (_ & Hwrite & Hread).
  split; [ | split; [ | split ] ].
  - split; [ vm_compute; reflexivity | ].
    apply (Hwrite env_read_throws state_write_minus_1); vm_compute; reflexivity.
  - split; [ vm_compute; reflexivity | ].
    apply (Hwrite env_read_empty state_write_minus_1); vm_compute; reflexivity.
  - split; [ vm_compute; reflexivity | ].
    apply (Hwrite env_link_drops state_write_minus_1); vm_compute; reflexivity.
  - apply (Hread attempt_reads_ff [] state_spawned); vm_compute; reflexivity.
Defined.

(** ** The task coordinator *)

(** *** [coord_frame]: the coordinator's own fields *)

#[export] Instance coord_frame_invariant : LinkInvariant coord_frame.
Proof.
  constructor.
  - intros s; constructor; reflexivity.
  - intros s1 s2 s3 [] []; constructor; etransitivity; eassumption.
  - intros e s He; constructor; reflexivity.
  - intros d s; constructor; reflexivity.
  - intros v s; constructor; reflexivity.
  - intros v s; constructor; reflexivity.
  - intros v s; constructor; reflexivity.
Qed.

Lemma coord_frame_emit (e : Event) : respects coord_frame (emit e).
Proof. intros s; constructor; reflexivity. Qed.

Lemma coord_frame_set_myDevice v : respects coord_frame (modify (set_myDevice v)).
Proof. intros s; constructor; reflexivity. Qed.

Lemma coord_frame_set_bleMutex v : respects coord_frame (modify (set_bleMutex v)).
Proof. intros s; constructor; reflexivity. Qed.

Lemma coord_frame_set_target_weight v : respects coord_frame (modify (set_target_weight v)).
Proof. intros s; constructor; reflexivity. Qed.

Lemma coord_frame_set_weight_buffer v : respects coord_frame (modify (set_weight_buffer v)).
Proof. intros s; constructor; reflexivity. Qed.

Lemma coord_frame_update_display_value w : respects coord_frame (update_display_value w).
Proof.
  intros s. unfold update_display_value. autorewrite with run.
  destruct s as [? ? ? ? ? ? ? ? ? ? ? d ?]; cbn.
  destruct (weight_label d); constructor; reflexivity.
Qed.

Lemma coord_frame_show_verification_checkmark :
  respects coord_frame show_verification_checkmark.
Proof.
  intros s. unfold show_verification_checkmark. autorewrite with run.
  destruct s as [? ? ? ? ? ? ? ? ? ? ? d ?]; cbn.
  destruct (checkmark_label d); constructor; reflexivity.
Qed.

Lemma coord_frame_hide_verification_checkmark :
  respects coord_frame hide_verification_checkmark.
Proof.
  intros s. unfold hide_verification_checkmark. autorewrite with run.
  destruct s as [? ? ? ? ? ? ? ? ? ? ? d ?]; cbn.
  destruct (checkmark_label d); constructor; reflexivity.
Qed.

Lemma coord_frame_connectToServer env : respects coord_frame (connectToServer env).
Proof.
  intros s. destruct (link_frame_connectToServer env s). constructor; assumption.
Qed.

#[local] Hint Resolve coord_frame_emit coord_frame_set_myDevice
  coord_frame_set_bleMutex coord_frame_set_target_weight
  coord_frame_set_weight_buffer coord_frame_update_display_value coord_frame_show_verification_checkmark
  coord_frame_hide_verification_checkmark coord_frame_connectToServer : respects.

Lemma coord_frame_xSemaphoreTake who granted :
  respects coord_frame (xSemaphoreTake who granted).
Proof. unfold xSemaphoreTake. respects_walk. Qed.

Lemma coord_frame_xSemaphoreGive : respects coord_frame xSemaphoreGive.
Proof. unfold xSemaphoreGive. respects_walk. Qed.

#[local] Hint Resolve coord_frame_xSemaphoreTake coord_frame_xSemaphoreGive : respects.

Lemma coord_frame_initial_read_attempt (a : AttemptEnv) :
  respects coord_frame (initial_read_attempt a).
Proof. unfold initial_read_attempt. respects_walk. Qed.

#[local] Hint Resolve coord_frame_initial_read_attempt : respects.

(** *** What the tasks do to the coordinator's fields *)

Lemma write_verify_task_exit (env : WriteVerifyEnv) (s : State) :
  tasks (exec (write_verify_task env) s) = remove_task WriteVerifyTask (tasks s) /\
  writeTaskHandle (exec (write_verify_task env) s) = None /\
  initialReadTaskHandle (exec (write_verify_task env) s) = initialReadTaskHandle s.
Proof.
  unfold write_verify_task. autorewrite with mrun.
  match goal with
  | |- context [ exec (vTaskDelete _) (exec (modify _) (exec ?m2 (exec ?m1 (exec ?m0 s)))) ] =>
      assert (H : coord_frame s (exec m2 (exec m1 (exec m0 s))));
      [ eapply li_trans; [ eapply li_trans | ];
        [ refine ((_ : respects coord_frame m0) _); respects_walk
        | refine ((_ : respects coord_frame m1) _); respects_walk
        | refine ((_ : respects coord_frame m2) _); respects_walk ]
      | set (sE := exec m2 (exec m1 (exec m0 s))) in * ]
  end.
  destruct H as [Ht Hw Hr].
  repeat split.
  - change (remove_task WriteVerifyTask (tasks sE) = remove_task WriteVerifyTask (tasks s)).
    rewrite Ht. reflexivity.
  - exact Hr.
Qed.

Lemma initial_read_loop_coord (attempts : list AttemptEnv) (s : State) :
  coord_frame s (loop_state (initial_read_loop attempts s)).
Proof.
  revert s; induction attempts as [ | a rest IH ]; intros s.
  - apply li_refl.
  - rewrite initial_read_loop_cons.
    destruct (attempt_succeeds a s); cbn [loop_state].
    + apply coord_frame_initial_read_attempt.
    + eapply li_trans; [ | apply IH ].
      unfold after_failed_attempt.
      eapply li_trans; [ apply coord_frame_initial_read_attempt | ].
      refine ((_ : respects coord_frame (vTaskDelay _ _)) _).
      auto with respects typeclass_instances.
Qed.

(** When the loop has been left, the epilogue clears the handle and deletes
    the task; while it is still retrying, the coordinator's fields are as
    they were. *)
Lemma initial_read_loop_exit (attempts : list AttemptEnv) (s : State) :
  match initial_read_loop attempts s with
  | Exited s' _ =>
      tasks (exec initial_read_epilogue s') = remove_task InitialReadTask (tasks s) /\
      initialReadTaskHandle (exec initial_read_epilogue s') = None /\
      writeTaskHandle (exec initial_read_epilogue s') = writeTaskHandle s
  | Retrying s' => coord_frame s s'
  end.
Proof.
  pose proof (initial_read_loop_coord attempts s) as H.
  destruct (initial_read_loop attempts s) as [ s' unused | s' ]; cbn [loop_state] in H;
    [ | exact H ].
  destruct H as [Ht Hw Hr].
  unfold initial_read_epilogue. autorewrite with mrun.
  repeat split.
  - change (remove_task InitialReadTask (tasks s') = remove_task InitialReadTask (tasks s)).
    rewrite Ht. reflexivity.
  - exact Hw.
Qed.

Lemma count_remove_same (fn : TaskFn) (l : list TaskFn) :
  length (filter (TaskFn_eqb fn) (remove_task fn l))
  = pred (length (filter (TaskFn_eqb fn) l)).
Proof.
  induction l as [ | t l IH ]; [ reflexivity | ].
  cbn [remove_task filter]. destruct (TaskFn_eqb fn t) eqn:E.
  - reflexivity.
  - cbn [filter]. rewrite E. exact IH.
Qed.

Lemma count_remove_other (fn fn' : TaskFn) (l : list TaskFn) :
  TaskFn_eqb fn' fn = false ->
  length (filter (TaskFn_eqb fn') (remove_task fn l))
  = length (filter (TaskFn_eqb fn') l).
Proof.
  intros Hne. induction l as [ | t l IH ]; [ reflexivity | ].
  cbn [remove_task filter]. destruct (TaskFn_eqb fn t) eqn:E.
  - destruct fn, t, fn'; try discriminate; reflexivity.
  - cbn [filter]. destruct (TaskFn_eqb fn' t); cbn [length]; rewrite IH; reflexivity.
Qed.

(** A write request while an operation is in flight changes nothing at all. *)
Lemma write_target_weight_in_flight (created : bool) (weight : Z) (s : State) :
  in_flight s = true ->
  write_target_weight created weight s = (tt, s).
Proof.
  unfold in_flight, write_target_weight. intros H.
  rewrite bind_run, eval_get, exec_get, bind_run, eval_get, exec_get.
  destruct (writeTaskHandle s), (initialReadTaskHandle s); try reflexivity.
  discriminate.
Qed.

(** A repeated initial-read request changes nothing at all. *)
Lemma ble_perform_initial_read_running (created : bool) (s : State) :
  initialReadTaskHandle s <> None ->
  ble_perform_initial_read created s = (tt, s).
Proof.
  unfold ble_perform_initial_read. intros H.
  rewrite bind_run, eval_get, exec_get.
  destruct (initialReadTaskHandle s); [ reflexivity | contradiction ].
Qed.

Lemma coord_frame_tasks {A : Type} (m : M A) (s : State) :
  respects coord_frame m -> tasks (exec m s) = tasks s.
Proof. intros H. apply (H s). Qed.

Lemma coord_frame_write_handle {A : Type} (m : M A) (s : State) :
  respects coord_frame m -> writeTaskHandle (exec m s) = writeTaskHandle s.
Proof. intros H. apply (H s). Qed.

Lemma coord_frame_read_handle {A : Type} (m : M A) (s : State) :
  respects coord_frame m -> initialReadTaskHandle (exec m s) = initialReadTaskHandle s.
Proof. intros H. apply (H s). Qed.

Ltac peel_coord :=
  repeat first
    [ rewrite coord_frame_tasks by respects_walk
    | rewrite coord_frame_write_handle by respects_walk
    | rewrite coord_frame_read_handle by respects_walk ].

Lemma run_set_writeTaskHandle v s :
  tasks (exec (modify (set_writeTaskHandle v)) s) = tasks s /\
  writeTaskHandle (exec (modify (set_writeTaskHandle v)) s) = v /\
  initialReadTaskHandle (exec (modify (set_writeTaskHandle v)) s) = initialReadTaskHandle s.
Proof. repeat split. Qed.

Lemma run_set_initialReadTaskHandle v s :
  tasks (exec (modify (set_initialReadTaskHandle v)) s) = tasks s /\
  writeTaskHandle (exec (modify (set_initialReadTaskHandle v)) s) = writeTaskHandle s /\
  initialReadTaskHandle (exec (modify (set_initialReadTaskHandle v)) s) = v.
Proof. repeat split. Qed.

Lemma run_xTaskCreate_write (created : bool) (s : State) :
  eval (xTaskCreate WriteVerifyTask set_writeTaskHandle created) s = created /\
  tasks (exec (xTaskCreate WriteVerifyTask set_writeTaskHandle created) s)
    = (if created then WriteVerifyTask :: tasks s else tasks s) /\
  writeTaskHandle (exec (xTaskCreate WriteVerifyTask set_writeTaskHandle created) s)
    = (if created then Some WriteVerifyTask else writeTaskHandle s) /\
  initialReadTaskHandle (exec (xTaskCreate WriteVerifyTask set_writeTaskHandle created) s)
    = initialReadTaskHandle s.
Proof. destruct created; repeat split. Qed.

Lemma run_xTaskCreate_read (created : bool) (s : State) :
  eval (xTaskCreate InitialReadTask set_initialReadTaskHandle created) s = created /\
  tasks (exec (xTaskCreate InitialReadTask set_initialReadTaskHandle created) s)
    = (if created then InitialReadTask :: tasks s else tasks s) /\
  writeTaskHandle (exec (xTaskCreate InitialReadTask set_initialReadTaskHandle created) s)
    = writeTaskHandle s /\
  initialReadTaskHandle (exec (xTaskCreate InitialReadTask set_initialReadTaskHandle created) s)
    = (if created then Some InitialReadTask else initialReadTaskHandle s).
Proof. destruct created; repeat split. Qed.

(** A write request while nothing is in flight creates the write task, or
    leaves the coordinator as it was when the task cannot be created. *)
Lemma write_target_weight_idle (created : bool) (weight : Z) (s : State) :
  in_flight s = false ->
  initialReadTaskHandle (exec (write_target_weight created weight) s) = None /\
  tasks (exec (write_target_weight created weight) s)
    = (if created then WriteVerifyTask :: tasks s else tasks s) /\
  writeTaskHandle (exec (write_target_weight created weight) s)
    = (if created then Some WriteVerifyTask else None).
Proof.
  unfold in_flight. intros Hf.
  destruct (writeTaskHandle s) eqn:Ew; [ discriminate | ].
  destruct (initialReadTaskHandle s) eqn:Er; [ discriminate | ].
  unfold write_target_weight. autorewrite with mrun. rewrite Ew, Er.
  autorewrite with mrun.
  rewrite (proj1 (run_xTaskCreate_write created _)).
  destruct created; cbn [negb]; autorewrite with mrun; peel_coord.
  - destruct (run_xTaskCreate_write true
                (exec (update_ble_status BLE_STATUS_CONNECTING)
                   (exec hide_verification_checkmark
                      (exec (modify (set_weight_buffer weight)) s))))
      as (_ & Ht & Hw & Hr).
    rewrite Ht, Hw, Hr. peel_coord. rewrite Er. repeat split.
  - rewrite (proj1 (run_set_writeTaskHandle _ _)).
    rewrite (proj1 (proj2 (run_set_writeTaskHandle _ _))).
    rewrite (proj2 (proj2 (run_set_writeTaskHandle _ _))).
    destruct (run_xTaskCreate_write false
                (exec (update_ble_status BLE_STATUS_CONNECTING)
                   (exec hide_verification_checkmark
                      (exec (modify (set_weight_buffer weight)) s))))
      as (_ & Ht & Hw & Hr).
    rewrite Ht, Hr. peel_coord. rewrite Er. repeat split.
Qed.

Lemma ble_perform_initial_read_idle (created : bool) (s : State) :
  initialReadTaskHandle s = None ->
  writeTaskHandle (exec (ble_perform_initial_read created) s) = writeTaskHandle s /\
  tasks (exec (ble_perform_initial_read created) s)
    = (if created then InitialReadTask :: tasks s else tasks s) /\
  initialReadTaskHandle (exec (ble_perform_initial_read created) s)
    = (if created then Some InitialReadTask else None).
Proof.
  intros Er.
  unfold ble_perform_initial_read. autorewrite with mrun. rewrite Er.
  autorewrite with mrun.
  rewrite (proj1 (run_xTaskCreate_read created _)).
  destruct (run_xTaskCreate_read created s) as (_ & Ht & Hw & Hr).
  destruct created; cbn [negb]; autorewrite with mrun; peel_coord.
  - rewrite Ht, Hw, Hr. repeat split.
  - rewrite (proj1 (run_set_initialReadTaskHandle _ _)).
    rewrite (proj1 (proj2 (run_set_initialReadTaskHandle _ _))).
    rewrite (proj2 (proj2 (run_set_initialReadTaskHandle _ _))).
    rewrite Ht, Hw. repeat split.
Qed.

Lemma tasks_eqb_eq (a b : list TaskFn) : tasks_eqb a b = true <-> a = b.
Proof.
  revert b; induction a as [ | x a IH ]; intros [ | y b ]; cbn;
    try (split; [ reflexivity || discriminate | reflexivity || discriminate ]).
  rewrite andb_true_iff, IH. split.
  - intros [Hxy ->]. destruct x, y; try discriminate; reflexivity.
  - intros [= -> ->]. split; [ destruct y | ]; reflexivity.
Qed.

Lemma handle_eqb_eq (a b : option TaskFn) : handle_eqb a b = true <-> a = b.
Proof.
  destruct a as [ [ | ] | ], b as [ [ | ] | ]; cbn; split;
    intros H; try reflexivity; try discriminate.
Qed.

Lemma same_coordinator_frame (s s' : State) :
  same_coordinator s s' = true <-> coord_frame s s'.
Proof.
  unfold same_coordinator. rewrite !andb_true_iff, tasks_eqb_eq, !handle_eqb_eq.
  split.
  - intros [[Ht Hw] Hr]. constructor; congruence.
  - intros [Ht Hw Hr]. repeat split; congruence.
Qed.

(** *** The invariant *)

Lemma write_target_weight_coord (created : bool) (weight : Z) (y : System) :
  coordinator_ok y -> coordinator_ok (sys_step y (RequestWrite weight created)).
Proof.
  intros [Hw Hr]. cbn [sys_step].
  destruct (in_flight (sys_state y)) eqn:Hf.
  { unfold exec. rewrite write_target_weight_in_flight by exact Hf.
    constructor; assumption. }
  destruct (write_target_weight_idle created weight (sys_state y) Hf) as (Hrh & Ht & Hwh).
  unfold in_flight in Hf.
  destruct (writeTaskHandle (sys_state y)) eqn:Ew; [ discriminate | ].
  destruct (initialReadTaskHandle (sys_state y)) eqn:Er; [ discriminate | ].
  cbn [handle_count] in *.
  constructor; unfold count_tasks, count_exiting in *;
    cbn [sys_state exiting]; rewrite Ht, ?Hwh, ?Hrh;
    destruct created; cbn; lia.
Qed.

Lemma ble_perform_initial_read_coord (created : bool) (y : System) :
  coordinator_ok y -> coordinator_ok (sys_step y (RequestInitialRead created)).
Proof.
  intros [Hw Hr]. cbn [sys_step].
  destruct (initialReadTaskHandle (sys_state y)) eqn:Er.
  { unfold exec. rewrite ble_perform_initial_read_running by congruence.
    cbn [snd]. constructor; [ exact Hw | cbn [sys_state]; rewrite Er; exact Hr ]. }
  destruct (ble_perform_initial_read_idle created (sys_state y) Er) as (Hwh & Ht & Hrh).
  cbn [handle_count] in *.
  constructor; unfold count_tasks, count_exiting in *;
    cbn [sys_state exiting]; rewrite Ht, ?Hwh, ?Hrh;
    destruct created; cbn; lia.
Qed.

(** A task in its operation is the task its handle points to. *)
Lemma operating_handle (y : System) :
  coordinator_ok y ->
  operating WriteVerifyTask y = handle_count (writeTaskHandle (sys_state y)) /\
  operating InitialReadTask y = handle_count (initialReadTaskHandle (sys_state y)).
Proof. intros [Hw Hr]. unfold operating. lia. Qed.

Lemma sys_step_coord (y : System) (e : SysEvent) :
  coordinator_ok y -> coordinator_ok (sys_step y e).
Proof.
  intros Hok. destruct e as [ weight created | created | s' | fn | fn ].
  - apply write_target_weight_coord, Hok.
  - apply ble_perform_initial_read_coord, Hok.
  - cbn [sys_step]. destruct (same_coordinator (sys_state y) s') eqn:E; [ | exact Hok ].
    apply same_coordinator_frame in E as [Ht Hwh Hrh].
    destruct Hok as [Hw Hr].
    constructor; unfold count_tasks, count_exiting in *; cbn [sys_state exiting];
      rewrite Ht, ?Hwh, ?Hrh; assumption.
  - cbn [sys_step]. destruct (operating fn y) eqn:Eop; [ exact Hok | ].
    destruct (operating_handle y Hok) as [Ow Or]. destruct Hok as [Hw Hr].
    destruct fn; [ rewrite Eop in Or | rewrite Eop in Ow ];
      constructor; unfold count_tasks, count_exiting in *;
      cbn [sys_state exiting set_handle filter TaskFn_eqb length];
      rewrite exec_modify;
      cbn [tasks writeTaskHandle initialReadTaskHandle set_writeTaskHandle
           set_initialReadTaskHandle];
      destruct (writeTaskHandle (sys_state y)), (initialReadTaskHandle (sys_state y));
      cbn [handle_count] in *; lia.
  - cbn [sys_step]. destruct (count_exiting fn y) eqn:Eex; [ exact Hok | ].
    destruct Hok as [Hw Hr].
    assert (Ht : tasks (exec (vTaskDelete fn) (sys_state y))
                 = remove_task fn (tasks (sys_state y))) by reflexivity.
    assert (Hwh : writeTaskHandle (exec (vTaskDelete fn) (sys_state y))
                  = writeTaskHandle (sys_state y)) by reflexivity.
    assert (Hrh : initialReadTaskHandle (exec (vTaskDelete fn) (sys_state y))
                  = initialReadTaskHandle (sys_state y)) by reflexivity.
    unfold count_exiting in Eex.
    destruct fn; constructor; unfold count_tasks, count_exiting in *;
      cbn [sys_state exiting]; rewrite Ht, ?Hwh, ?Hrh.
    + rewrite !(count_remove_other InitialReadTask WriteVerifyTask) by reflexivity.
      exact Hw.
    + rewrite !count_remove_same. lia.
    + rewrite !count_remove_same. lia.
    + rewrite !(count_remove_other WriteVerifyTask InitialReadTask) by reflexivity.
      exact Hr.
Qed.

Lemma sys_run_coord (events : list SysEvent) (y : System) :
  coordinator_ok y -> coordinator_ok (sys_run events y).
Proof.
  revert y; induction events as [ | e events IH ]; intros y Hok; [ exact Hok | ].
  cbn [sys_run fold_left]. apply IH, sys_step_coord, Hok.
Qed.

Lemma boot_system_coord : coordinator_ok boot_system.
Proof. constructor; reflexivity. Qed.

(** *** The code of the tasks is among the runs *)

(** A complete run of the write task: code that leaves the coordinator's
    fields alone, then its last two statements. *)
Lemma write_verify_task_is_a_run (env : WriteVerifyEnv) (y : System) :
  (0 < operating WriteVerifyTask y)%nat ->
  exists s1,
    sys_run [OtherCode s1; TaskClearsHandle WriteVerifyTask;
             TaskDeletesItself WriteVerifyTask] y
    = mkSystem (exec (write_verify_task env) (sys_state y)) (exiting y).
Proof.
  intros Hop. unfold write_verify_task. autorewrite with mrun.
  match goal with
  | |- context [ exec (vTaskDelete _) (exec (modify _) (exec ?m2 (exec ?m1 (exec ?m0 ?s)))) ] =>
      assert (H : coord_frame s (exec m2 (exec m1 (exec m0 s))));
      [ eapply li_trans; [ eapply li_trans | ];
        [ refine ((_ : respects coord_frame m0) _); respects_walk
        | refine ((_ : respects coord_frame m1) _); respects_walk
        | refine ((_ : respects coord_frame m2) _); respects_walk ]
      | exists (exec m2 (exec m1 (exec m0 s))) ]
  end.
  pose proof H as [Ht Hwh Hrh].
  apply same_coordinator_frame in H.
  cbn [sys_run fold_left sys_step]. rewrite H.
  assert (Hop1 : forall st ex, tasks st = tasks (sys_state y) ->
            operating WriteVerifyTask (mkSystem st ex)
            = (count_tasks WriteVerifyTask (sys_state y)
               - length (filter (TaskFn_eqb WriteVerifyTask) ex))%nat).
  { intros st ex E. unfold operating, count_tasks, count_exiting. cbn. rewrite E.
    reflexivity. }
  rewrite (Hop1 _ _ Ht).
  unfold operating, count_exiting in Hop.
  destruct (count_tasks WriteVerifyTask (sys_state y)
            - length (filter (TaskFn_eqb WriteVerifyTask) (exiting y)))%nat eqn:E;
    [ lia | ].
  unfold count_exiting. cbn [exiting sys_state filter TaskFn_eqb length remove_task set_handle].
  reflexivity.
Qed.

(** A run of the initial read task through its boot delay and any number
    of passes: code that leaves the coordinator's fields alone, followed by
    its last two statements if a pass has succeeded. *)
Lemma initial_read_task_is_a_run (boot_callbacks : list Callback)
    (attempts : list AttemptEnv) (y : System) :
  (0 < operating InitialReadTask y)%nat ->
  match initial_read_task boot_callbacks attempts (sys_state y) with
  | Exited s' _ =>
      exists s1,
        sys_run [OtherCode s1; TaskClearsHandle InitialReadTask;
                 TaskDeletesItself InitialReadTask] y
        = mkSystem s' (exiting y)
  | Retrying s' => sys_run [OtherCode s'] y = mkSystem s' (exiting y)
  end.
Proof.
  intros Hop. unfold initial_read_task.
  pose proof (initial_read_loop_coord attempts
                (exec (vTaskDelay 1000 boot_callbacks) (sys_state y))) as Hloop.
  assert (Hboot : coord_frame (sys_state y)
                    (exec (vTaskDelay 1000 boot_callbacks) (sys_state y))).
  { refine ((_ : respects coord_frame (vTaskDelay _ _)) _).
    auto with respects typeclass_instances. }
  pose proof (li_trans _ _ _ Hboot Hloop) as H. clear Hboot Hloop.
  destruct (initial_read_loop attempts _) as [ s1 unused | s1 ]; cbn [loop_state] in H.
  - exists s1. pose proof H as [Ht Hwh Hrh].
    apply same_coordinator_frame in H.
    cbn [sys_run fold_left sys_step]. rewrite H.
    unfold operating, count_tasks, count_exiting in *. cbn [sys_state exiting]. rewrite Ht.
    destruct (length (filter (TaskFn_eqb InitialReadTask) (tasks (sys_state y)))
              - length (filter (TaskFn_eqb InitialReadTask) (exiting y)))%nat eqn:E;
      [ lia | ].
    cbn [exiting sys_state filter TaskFn_eqb length remove_task set_handle].
    unfold initial_read_epilogue. rewrite exec_bind. reflexivity.
  - apply same_coordinator_frame in H.
    cbn [sys_run fold_left sys_step]. rewrite H. reflexivity.
Qed.

(** C3 (as the code has it). Whatever requests are made and however the
    other code is interleaved with them, at every instant at most one write
    task and at most one initial read task are in their operation, that is,
    exist without having cleared their handle yet; every other existing
    task has only its [vTaskDelete(NULL)] left.  A write request made while
    a task of either kind is in its operation is rejected without any
    effect, so it is not queued; and an initial-read request made while an
    initial read task is in its operation has no effect either. *)
Theorem coordinator_one_task_of_each_kind (events : list SysEvent) :
  let y := sys_run events boot_system in
  let s := sys_state y in
  (operating WriteVerifyTask y <= 1)%nat /\
  (operating InitialReadTask y <= 1)%nat /\
  count_tasks WriteVerifyTask s
    = (operating WriteVerifyTask y + count_exiting WriteVerifyTask y)%nat /\
  count_tasks InitialReadTask s
    = (operating InitialReadTask y + count_exiting InitialReadTask y)%nat /\
  (forall created weight,
      (0 < operating WriteVerifyTask y + operating InitialReadTask y)%nat ->
      write_target_weight created weight s = (tt, s)) /\
  (forall created,
      (0 < operating InitialReadTask y)%nat ->
      ble_perform_initial_read created s = (tt, s)).
Proof.
  intros y s.
  pose proof (sys_run_coord events boot_system boot_system_coord) as Hok.
  fold y in Hok.
  destruct (operating_handle y Hok) as [Ow Or]. destruct Hok as [Hw Hr].
  fold s in Hw, Hr, Ow, Or.
  repeat split.
  - rewrite Ow. destruct (writeTaskHandle s); cbn; lia.
  - rewrite Or. destruct (initialReadTaskHandle s); cbn; lia.
  - unfold operating. fold s. lia.
  - unfold operating. fold s. lia.
  - intros created weight Hlive. apply write_target_weight_in_flight.
    unfold in_flight. rewrite Ow, Or in Hlive.
    destruct (writeTaskHandle s), (initialReadTaskHandle s); cbn in *;
      try reflexivity; lia.
  - intros created Hlive. apply ble_perform_initial_read_running.
    rewrite Or in Hlive. destruct (initialReadTaskHandle s); cbn in *;
      [ discriminate | lia ].
Qed.

Lemma coordinator_one_task_of_each_kind_witness :
  write_target_weight true 50
    (sys_state (sys_run events_write_then_initial_read boot_system))
  = (tt, sys_state (sys_run events_write_then_initial_read boot_system)).
Proof.
  apply (coordinator_one_task_of_each_kind events_write_then_initial_read).
  vm_compute. lia.
Defined.

(** C3 as stated fails: an initial-read request is not rejected while a
    write task is in its operation, and then two operations are active at
    once. *)
Lemma initial_read_joins_write_in_flight :
  let y := sys_run events_write_then_initial_read boot_system in
  let s := sys_state y in
  tasks s = [InitialReadTask; WriteVerifyTask] /\
  writeTaskHandle s = Some WriteVerifyTask /\
  initialReadTaskHandle s = Some InitialReadTask /\
  operating WriteVerifyTask y = 1%nat /\
  operating InitialReadTask y = 1%nat /\
  ~ (count_tasks WriteVerifyTask s + count_tasks InitialReadTask s <= 1)%nat.
Proof. vm_compute. repeat split. lia. Qed.

(** Between the last two statements of a write task its handle is clear
    while the task still exists: a write request made there is accepted,
    and until the old task has deleted itself there are two write tasks,
    one in its operation and one with only its deletion left. *)
Lemma write_accepted_in_exit_window :
  let y := sys_run events_write_in_exit_window boot_system in
  let s := sys_state y in
  tasks s = [WriteVerifyTask; WriteVerifyTask] /\
  writeTaskHandle s = Some WriteVerifyTask /\
  weight_buffer s = 50 /\
  operating WriteVerifyTask y = 1%nat /\
  count_exiting WriteVerifyTask y = 1%nat /\
  tasks (sys_state (sys_step y (TaskDeletesItself WriteVerifyTask))) = [WriteVerifyTask].
Proof. vm_compute. repeat split. Qed.

(** C6 (as the code has it). A write request that arrives while another
    operation is in flight returns before it touches anything: no task is
    created, the weight buffer keeps the value of the write in flight, and
    the display module is not called, so Status and the verified indicator
    stay as they were. *)
Theorem write_request_in_flight_is_dropped (created : bool) (weight : Z) (s : State) :
  in_flight s = true ->
  exec (write_target_weight created weight) s = s /\
  trace (exec (write_target_weight created weight) s) = trace s /\
  Status (exec (write_target_weight created weight) s) = Status s /\
  verified (exec (write_target_weight created weight) s) = verified s.
Proof.
  intros H. unfold exec. rewrite (write_target_weight_in_flight created weight s H).
  repeat split.
Qed.

Lemma write_request_in_flight_is_dropped_witness :
  in_flight state_write_50 = true /\
  exec (write_target_weight true 45) state_write_50 = state_write_50.
Proof.
  split; [ reflexivity | ].
  apply (write_request_in_flight_is_dropped true 45 state_write_50). reflexivity.
Defined.

(** C6 as stated fails: while the write of 50 is in flight, a request to
    write 45 is rejected and the UI is told nothing; Status is still
    Connecting, as the first request left it. *)
Lemma rejected_write_is_not_shown :
  in_flight state_write_50 = true /\
  trace (exec (write_target_weight true 45) state_write_50) = trace state_write_50 /\
  Status (exec (write_target_weight true 45) state_write_50) = Some BLE_STATUS_CONNECTING /\
  weight_buffer (exec (write_target_weight true 45) state_write_50) = 50.
Proof. vm_compute. repeat split. Qed.

(** ** The knob handlers *)

Lemma wrap_congruent (z : Z) : (Int8.wrap z - z) mod 256 = 0.
Proof.
  unfold Int8.wrap.
  pose proof (Z.div_mod (z + 128) 256 ltac:(lia)) as H.
  replace ((z + 128) mod 256 - 128 - z) with (- ((z + 128) / 256) * 256) by lia.
  apply Z.mod_mul. lia.
Qed.

(** A turn on the Shot Stopper screen: the new Target Value is the old one
    plus or minus one, converted to [int8_t]; it is what is displayed. *)
Lemma run_knob_right_cb (s : State) :
  target_weight (exec (knob_right_cb screen_shot_stopper) s)
    = Int8.wrap (target_weight s + 1) /\
  displayed (exec (knob_right_cb screen_shot_stopper) s)
    = Some (Int8.wrap (target_weight s + 1)) /\
  verified (exec (knob_right_cb screen_shot_stopper) s) = Some false.
Proof.
  destruct s as [? ? ? ? ? ? ? t ? timer ? [sl [wl | ] [cl | ]] ?];
    destruct timer; repeat split.
Qed.

Lemma run_knob_left_cb (s : State) :
  target_weight (exec (knob_left_cb screen_shot_stopper) s)
    = Int8.wrap (target_weight s - 1) /\
  displayed (exec (knob_left_cb screen_shot_stopper) s)
    = Some (Int8.wrap (target_weight s - 1)) /\
  verified (exec (knob_left_cb screen_shot_stopper) s) = Some false.
Proof.
  destruct s as [? ? ? ? ? ? ? t ? timer ? [sl [wl | ] [cl | ]] ?];
    destruct timer; repeat split.
Qed.

(** A write request while nothing is in flight stores its argument, as it
    is, in the buffer the task reads. *)
Lemma write_target_weight_buffer (created : bool) (weight : Z) (s : State) :
  in_flight s = false ->
  weight_buffer (exec (write_target_weight created weight) s) = weight.
Proof.
  unfold in_flight. destruct s as [? ? ? ? ? hw hr ? ? ? ? [[sl | ] wl [cl | ]] ?].
  cbn [writeTaskHandle initialReadTaskHandle].
  all: destruct hw, hr; try discriminate; intros _; destruct created; reflexivity.
Qed.

(** C10. Target Value is an [int8_t] that the knob handlers increment and
    decrement without a guard: a turn stores the old value plus or minus
    one reduced modulo 2^8 into [-128, 127], so 127 goes up to -128 and 0
    goes down to -1.  Nothing clamps the value afterwards: the wrapped
    value is what the handler displays, what the timer callback passes to
    [write_target_weight], and what that function hands to the write
    task. *)
Theorem knob_turns_wrap_without_clamp :
  (forall z, Int8.in_range (Int8.wrap z) /\ (Int8.wrap z - z) mod 256 = 0) /\
  (forall s,
      target_weight (exec (knob_right_cb screen_shot_stopper) s)
        = Int8.wrap (target_weight s + 1) /\
      displayed (exec (knob_right_cb screen_shot_stopper) s)
        = Some (Int8.wrap (target_weight s + 1))) /\
  (forall s,
      target_weight (exec (knob_left_cb screen_shot_stopper) s)
        = Int8.wrap (target_weight s - 1) /\
      displayed (exec (knob_left_cb screen_shot_stopper) s)
        = Some (Int8.wrap (target_weight s - 1))) /\
  Int8.wrap (127 + 1) = -128 /\
  Int8.wrap (0 - 1) = -1 /\
  (forall created s,
      ble_write_timer_callback created s
        = write_target_weight created (target_weight s) s) /\
  (forall created s,
      in_flight s = false ->
      weight_buffer (exec (ble_write_timer_callback created) s) = target_weight s).
Proof.
  split; [ | split; [ | split; [ | split; [ | split; [ | split ] ] ] ] ].
  - intros z. split; [ apply wrap_in_range | apply wrap_congruent ].
  - intros s. destruct (run_knob_right_cb s) as (Ht & Hd & _). split; assumption.
  - intros s. destruct (run_knob_left_cb s) as (Ht & Hd & _). split; assumption.
  - reflexivity.
  - reflexivity.
  - intros created s. unfold ble_write_timer_callback.
    rewrite bind_run, eval_get, exec_get. reflexivity.
  - intros created s Hidle. unfold ble_write_timer_callback.
    rewrite exec_bind, eval_get, exec_get.
    apply write_target_weight_buffer, Hidle.
Qed.

Lemma knob_turns_wrap_without_clamp_witness :
  target_weight state_at_127 = 127 /\
  displayed (exec (knob_right_cb screen_shot_stopper) state_at_127) = Some (-128) /\
  weight_buffer (exec (ble_write_timer_callback true)
                   (exec (knob_right_cb screen_shot_stopper) state_at_127)) = -128 /\
  target_weight state_at_0 = 0 /\
  displayed (exec (knob_left_cb screen_shot_stopper) state_at_0) = Some (-1) /\
  weight_buffer (exec (ble_write_timer_callback true)
                   (exec (knob_left_cb screen_shot_stopper) state_at_0)) = -1.
Proof.
  pose proof knob_turns_wrap_without_clamp as (_ & Hright & Hleft & _ & _ & _ & Hwrite).
  split; [ vm_compute; reflexivity | ].
  split; [ rewrite (proj2 (Hright state_at_127)); vm_compute; reflexivity | ].
  split; [ rewrite Hwrite by (vm_compute; reflexivity); vm_compute; reflexivity | ].
  split; [ vm_compute; reflexivity | ].
  split; [ rewrite (proj2 (Hleft state_at_0)); vm_compute; reflexivity | ].
  rewrite Hwrite by (vm_compute; reflexivity); vm_compute; reflexivity.
Defined.
